(** * bindsnet.preprocessing: the cached geospatial encoders

    A shallow embedding of [bindsnet/preprocessing/__init__.py]:
    the template method [AbstractPreprocessor.process] with its content-hash
    cache, the spatial encoder [NumentaPreprocessor] and the digit encoder
    [AltGeoPreprocessor].

    Conventions.
    - A Python exception is a value of [exn]; a call that may raise returns
      [res A].  Code that touches the file system or the module-level
      generator of [random] is a function from a world to a result and a
      world ([io A]): the world that comes back is the one left behind,
      also when the call raised.
    - Python [int] is [Z].  Python [float] is read as an exact rational
      ([Q]): rounding of binary64, [nan] and [inf] are outside this model.
    - The libraries the module imports (hashlib, random, numpy, pandas,
      pyproj) are not code of the repository.  Each is an interface, a
      type class whose fields are the functions the module calls and whose
      laws are what the library documents about them. *)

From Stdlib Require Import ZArith QArith Qround Qpower Lia Lqa DecimalString Ascii String.
From Stdlib Require Import Reals Lra.
From Stdlib Require DecimalFacts DecimalPos DecimalZ.
From stdpp Require Import gmap strings list sorting.

Local Open Scope string_scope.
Local Open Scope Z_scope.

(** ** Exceptions and results *)

Inductive exn : Set :=
  | FileNotFoundError
  | UnicodeDecodeError
  | UnpicklingError
  | KeyError
  | ValueError
  | IndexError
  | ZeroDivisionError
  | RuntimeError.

Inductive res (A : Type) : Type :=
  | Ok (a : A)
  | Raise (e : exn).
Arguments Ok {A} a.
Arguments Raise {A} e.

Definition is_ok {A} (r : res A) : bool :=
  match r with Ok _ => true | Raise _ => false end.

(** [res] is a monad; the sequencing of statements is stdpp's [x ← r; k],
    and a loop body run over a list, stopping at the first exception, is
    stdpp's [mapM]. *)
#[export] Instance res_ret : MRet res := fun _ a => Ok a.
#[export] Instance res_bind : MBind res := fun _ _ k r =>
  match r with
  | Ok a => k a
  | Raise e => Raise e
  end.
#[export] Instance res_fmap : FMap res := fun _ _ f r =>
  match r with
  | Ok a => Ok (f a)
  | Raise e => Raise e
  end.

(** ** Python built-ins used by the module *)

(** [str(i)] of an [int] (and of a numpy [int64]): decimal digits, with a
    leading minus sign for a negative number. *)
Definition str (i : Z) : string := NilZero.string_of_int (Z.to_int i).

(** The value of one character as a digit in base 16, if it is one. *)
Definition hex_digit (c : ascii) : option Z :=
  let n := Z.of_nat (nat_of_ascii c) in
  if (48 <=? n) && (n <=? 57) then Some (n - 48)
  else if (97 <=? n) && (n <=? 102) then Some (n - 87)
  else if (65 <=? n) && (n <=? 70) then Some (n - 55)
  else None.

Fixpoint int16_from (acc : Z) (s : string) : option Z :=
  match s with
  | EmptyString => Some acc
  | String c s' =>
      match hex_digit c with
      | Some d => int16_from (16 * acc + d) s'
      | None => None
      end
  end.

(** [int(s, 16)] on a string of hexadecimal digits; [None] is the
    [ValueError] of a string that is empty or holds another character. *)
Definition int16 (s : string) : option Z :=
  match s with
  | EmptyString => None
  | _ => int16_from 0 s
  end.

(** [int(c)] of a one-character string taken from a decimal string. *)
Definition int_of_char (c : ascii) : res Z :=
  let n := Z.of_nat (nat_of_ascii c) in
  if (48 <=? n) && (n <=? 57) then Ok (n - 48) else Raise ValueError.

(** [int(x)] of a float: truncation towards zero. *)
Definition int_of_float (x : Q) : Z := Z.quot (Qnum x) (Z.pos (Qden x)).

(** [round(x)] of a float: the nearest integer, a tie going to the even one. *)
Definition round (x : Q) : Z :=
  let f := Qfloor x in
  match (x - inject_Z f ?= 1 # 2)%Q with
  | Lt => f
  | Gt => f + 1
  | Eq => if Z.even f then f else f + 1
  end.

(** [l[s:]]: a negative start counts from the end, and both ends clip. *)
Definition slice_from {A} (s : Z) (l : list A) : list A :=
  if s <? 0 then drop (Z.to_nat (Z.of_nat (length l) + s)) l
  else drop (Z.to_nat s) l.

(** ** The imported libraries, as interfaces *)

(** hashlib: [md5_hexdigest s] is [hashlib.md5(s.encode('utf-8')).hexdigest()],
    32 hexadecimal digits. *)
Class Hashlib := {
  md5_hexdigest : string -> string;
  md5_hexdigest_length : forall s, String.length (md5_hexdigest s) = 32%nat;
  md5_hexdigest_hex : forall s, is_Some (int16 (md5_hexdigest s))
}.

(** random: the module keeps one generator.  [seed a] is the state
    [random.seed(a)] installs, whatever the state before; [getrandbits k]
    and [randint a b] draw from the current state and advance it.
    [randint a b] is for [a <= b]; Python raises [ValueError] on an empty
    range, which [py_randint] below writes out. *)
Class Random := {
  rng : Type;
  seed : Z -> rng;
  getrandbits : Z -> rng -> Z * rng;
  randint : Z -> Z -> rng -> Z * rng;
  getrandbits_range : forall k g, 0 <= k -> 0 <= fst (getrandbits k g) < 2 ^ k;
  randint_range : forall a b g, a <= b -> a <= fst (randint a b g) <= b
}.

Definition py_randint `{Random} (a b : Z) (g : rng) : res Z * rng :=
  if b <? a then (Raise ValueError, g)
  else let '(v, g') := randint a b g in (Ok v, g').

(** The value of [l] at index [i] is at most the one at index [j]. *)
Definition le_at (l : list Z) (i j : nat) : Prop := l !!! i <= l !!! j.

#[export] Instance le_at_dec l i j : Decision (le_at l i j) :=
  decide (l !!! i <= l !!! j).

(** numpy: [argsort l] is [np.argsort(np.array(l))] with the default
    [kind]: the indices of [l], in an order that puts the values in
    ascending order.  The default sort is not a stable one, so the order
    among the indices of equal values is the library's. *)
Class Numpy := {
  argsort : list Z -> list nat;
  argsort_perm : forall l, argsort l ≡ₚ seq 0 (length l);
  argsort_sorted : forall l, StronglySorted (le_at l) (argsort l)
}.

(** pandas: [read_csv ls] is the frame [pd.read_csv] parses from a text
    file whose lines are [ls], a column of floats under each header name;
    every column has one entry per data row, [nrows ls] of them. *)
Class Pandas := {
  read_csv : list string -> res (gmap string (list Q));
  nrows : list string -> nat;
  read_csv_columns : forall ls df c col,
    read_csv ls = Ok df -> df !! c = Some col -> length col = nrows ls
}.

(** pyproj: [proj x y] is [Proj(init="epsg:3785")(x, y)], the forward
    spherical Mercator projection of a longitude and a latitude. *)
Class Pyproj := {
  proj : Q -> Q -> Q * Q
}.

(** ** The cache dictionary, files and the world *)

(** A batch of encodings ([torch.tensor(values)]): one row of 0.0 and 1.0
    entries per record. *)
Abbreviation tensor := (list (list Z)).

(** The dictionary [{'verify': ..., 'data': ...}]; ['data'] is [None] until
    an encoding is stored in it. *)
Record Cache := {
  verify : string;
  data : option tensor
}.

(** What a path of the file system holds: a text file, by the lines
    [readlines] returns, or the pickle [pickle.dump] wrote of a cache
    dictionary. *)
Inductive file :=
  | Text (lines : list string)
  | Pickled (c : Cache).

(** The world: the file system and the state of the generator of
    [random]. *)
Record World (G : Type) := {
  files : gmap string file;
  gen : G
}.
Arguments files {G} _.
Arguments gen {G} _.

Definition io `{Random} (A : Type) : Type := World rng -> res A * World rng.

#[export] Instance io_ret `{Random} : MRet io := fun _ a w => (Ok a, w).
#[export] Instance io_bind `{Random} : MBind io := fun _ _ k m w =>
  match m w with
  | (Ok a, w') => k a w'
  | (Raise e, w') => (Raise e, w')
  end.

(** [open(filename, 'r')] followed by [readlines()].  A pickle starts with
    a byte that is no UTF-8 text. *)
Definition readlines `{Random} (filename : string) : io (list string) := fun w =>
  match files w !! filename with
  | None => (Raise FileNotFoundError, w)
  | Some (Text ls) => (Ok ls, w)
  | Some (Pickled _) => (Raise UnicodeDecodeError, w)
  end.

(** [open(filename, 'rb')] followed by [pickle.load]. *)
Definition pickle_load `{Random} (filename : string) : io Cache := fun w =>
  match files w !! filename with
  | None => (Raise FileNotFoundError, w)
  | Some (Pickled c) => (Ok c, w)
  | Some (Text _) => (Raise UnpicklingError, w)
  end.

(** [open(filename, 'wb')] followed by [pickle.dump]; the directory of
    [filename] is created before, which this model of the file system
    has no need of. *)
Definition pickle_dump `{Random} (filename : string) (c : Cache) : io unit := fun w =>
  (Ok tt, {| files := <[filename := Pickled c]> (files w); gen := gen w |}).

(** A call that does not touch the world. *)
Definition lift `{Random} {A} (r : res A) : io A := fun st => (r, st).

(** [random.seed(a)], [random.getrandbits(k)] and [random.randint(a, b)]
    on the generator of the world. *)
Definition random_seed `{Random} (a : Z) : io unit := fun st =>
  (Ok tt, {| files := files st; gen := seed a |}).

Definition random_getrandbits `{Random} (k : Z) : io Z := fun st =>
  let '(v, g) := getrandbits k (gen st) in
  (Ok v, {| files := files st; gen := g |}).

Definition random_randint `{Random} (a b : Z) : io Z := fun st =>
  let '(r, g) := py_randint a b (gen st) in
  (r, {| files := files st; gen := g |}).

(** [pd.read_csv(filename)] and [data[c].tolist()]. *)
Definition pd_read_csv `{Random, Pandas} (filename : string) : io (gmap string (list Q)) :=
  ls ← readlines filename; lift (read_csv ls).

Definition column (data : gmap string (list Q)) (c : string) : res (list Q) :=
  match data !! c with
  | Some col => Ok col
  | None => Raise KeyError
  end.

(** [zip(a, b, c)]: triples, as many as the shortest list has entries. *)
Definition zip3 {A B C} (a : list A) (b : list B) (c : list C) : list (A * B * C) :=
  zip_with (fun x yz => (x, yz.1, yz.2)) a (zip b c).

(** [x / y] of floats: Python raises on a zero divisor. *)
Definition py_div (x y : Q) : res Q :=
  if Qeq_bool y 0 then Raise ZeroDivisionError else Ok (x / y)%Q.

(** [range(a, b)]. *)
Definition range (a b : Z) : list Z := seqZ a (b - a).

(** [torch.zeros(n)] and [np.zeros((rows, cols))]. *)
Definition torch_zeros (n : Z) : res (list Z) :=
  if n <? 0 then Raise RuntimeError else Ok (replicate (Z.to_nat n) 0).

Definition np_zeros (rows cols : nat) : list (list Z) :=
  replicate rows (replicate cols 0).

(** [output[i] = v] for one index of an index array: an index from
    [-len] to [-1] counts from the end, one outside [-len, len) raises. *)
Definition set_index (output : list Z) (i v : Z) : res (list Z) :=
  let len := Z.of_nat (length output) in
  if (0 <=? i) && (i <? len) then Ok (<[Z.to_nat i := v]> output)
  else if (- len <=? i) && (i <? 0) then Ok (<[Z.to_nat (len + i) := v]> output)
  else Raise IndexError.

(** [output[indices] = v] for an array of indices. *)
Fixpoint set_indices (output : list Z) (indices : list Z) (v : Z) : res (list Z) :=
  match indices with
  | [] => Ok output
  | i :: indices' =>
      output' ← set_index output i v; set_indices output' indices' v
  end.

(** [neighbors[indices]] for an array of indices into the rows. *)
Definition take_rows {A} (rows : list A) (indices : list nat) : res (list A) :=
  mapM (fun i => match rows !! i with
                 | Some r => Ok r
                 | None => Raise IndexError
                 end) indices.

(** [math.ceil((math.sqrt(w) - 1) / 2)] for [0 <= w].  The square root is
    no rational, so the expression is computed on integers: the least [r]
    with [sqrt w <= 2 * r + 1] is half the integer square root of [w]
    rounded up ([ceil_half_sqrt_pred_real] relates it to the real numbers). *)
Definition ceil_half_sqrt_pred (w : Z) : Z := Z.sqrt_up w / 2.

(** ** AbstractPreprocessor *)

(** The abstract base class: a subclass brings its name
    ([self.__class__.__name__]) and the hook [_process], which returns the
    cache dictionary as it leaves it. *)
Class AbstractPreprocessor `{Random} (P : Type) := {
  __name__ : string;
  _process : P -> string -> Cache -> io Cache
}.
Arguments __name__ {_} P {_}.

Module AbstractPreprocessor.
Section Methods.
Context `{Hashlib, Random} {P : Type} `{!AbstractPreprocessor P}.

Definition __gen_hash (self : P) (filename : string) : io string :=
  lines ← readlines filename;
  let pre := String.concat "" lines ++ __name__ P in
  mret (md5_hexdigest pre).

(** Returns whether the cache is valid, and the dictionary [cache] as
    the call leaves it. *)
Definition __check_file (cachedfile : string) (cache : Cache) : io (bool * Cache) :=
  fun w =>
    let r :=
      match pickle_load cachedfile w with
      | (Raise FileNotFoundError, w') => (Ok {| verify := ""; data := None |}, w')
      | other => other
      end in
    match r with
    | (Raise e, w') => (Raise e, w')
    | (Ok temp, w') =>
        if String.eqb (verify cache) (verify temp)
        then (Ok (true, {| verify := verify cache; data := data temp |}), w')
        else (Ok (false, cache), w')
    end.

Definition __save (filename : string) (data : Cache) : io unit :=
  pickle_dump filename data.

Definition process (self : P) (csvfile : string) (use_cache : bool)
    (cachedfile : string) : io (option tensor) :=
  let cache := {| verify := ""; data := None |} in
  if use_cache then
    h ← __gen_hash self csvfile;
    let cache := {| verify := h; data := data cache |} in
    '(valid, cache) ← __check_file cachedfile cache;
    if (valid : bool) then mret (data cache)
    else
      cache ← _process self csvfile cache;
      _ ← __save cachedfile cache;
      mret (data cache)
  else
    cache ← _process self csvfile cache;
    mret (data cache).
End Methods.
End AbstractPreprocessor.

(** ** NumentaPreprocessor *)

Module NumentaPreprocessor.
Record t := {
  w : Z;
  n : Z;
  scale : Z;
  timestep : Z
}.

(** [NumentaPreprocessor()] with the defaults of [__init__]. *)
Definition default : t := {| w := 21; n := 1000; scale := 5; timestep := 10 |}.

Section Methods.
Context `{Hashlib, Random, Numpy, Pandas, Pyproj}.

Definition __hash_coordinate (latitude longitude : Z) : res Z :=
  let coordinate_str := str latitude ++ "," ++ str longitude in
  match int16 (md5_hexdigest coordinate_str) with
  | Some m => Ok (m mod 2 ^ 64)
  | None => Raise ValueError
  end.

Definition __coordinate_order (latitude longitude : Z) : io Z :=
  h ← lift (__hash_coordinate latitude longitude);
  _ ← random_seed h;
  random_getrandbits 64.

Definition __coordinate_bit (self : t) (latitude longitude : Z) : io Z :=
  h ← lift (__hash_coordinate latitude longitude);
  _ ← random_seed h;
  random_randint 0 (n self - 1).

Definition __map_transform (self : t) (latitude longitude : Q) : res (Z * Z) :=
  let '(longitude, latitude) := proj longitude latitude in
  a ← py_div latitude (inject_Z (scale self));
  b ← py_div longitude (inject_Z (scale self));
  mret (int_of_float a, int_of_float b).

Definition __radius (self : t) (speed : Q) : res Z :=
  let overlap := (3 # 2)%Q in
  coordinates ← py_div (speed * inject_Z (timestep self)) (inject_Z (scale self));
  let radius := round (coordinates / 2 * overlap)%Q in
  min_radius ← (if w self <? 0 then Raise ValueError
                else Ok (ceil_half_sqrt_pred (w self)));
  mret (Z.max radius min_radius).

Definition __neighbors (latitude longitude radius : Z) : list (Z * Z) :=
  list_prod (range (latitude - radius) (latitude + radius + 1))
            (range (longitude - radius) (longitude + radius + 1)).

Definition __select (self : t) (neighbors : list (Z * Z)) : io (list (Z * Z)) :=
  orders ← mapM (fun n => __coordinate_order n.1 n.2) neighbors;
  let indices := slice_from (- w self) (argsort orders) in
  lift (take_rows neighbors indices).

Definition __generate_vector (self : t) (data_point : Q * Q * Q)
    (output : list Z) : io (list Z) :=
  let '(speed, latitude, longitude) := data_point in
  '(latitude, longitude) ← lift (__map_transform self latitude longitude);
  radius ← lift (__radius self speed);
  let neighbors := __neighbors latitude longitude radius in
  top ← __select self neighbors;
  indices ← mapM (fun w => __coordinate_bit self w.1 w.2) top;
  let output := replicate (length output) 0 in
  lift (set_indices output indices 1).

Definition _process (self : t) (filename : string) (cache : Cache) : io Cache :=
  data ← pd_read_csv filename;
  speeds ← lift (column data "speed");
  latitudes ← lift (column data "latitude");
  longitudes ← lift (column data "longitude");
  values ← mapM (fun '(speed, latitude, longitude) =>
                   output ← lift (torch_zeros (n self));
                   __generate_vector self (speed, latitude, longitude) output)
                (zip3 speeds latitudes longitudes);
  mret {| verify := verify cache; data := Some values |}.
End Methods.
End NumentaPreprocessor.

#[export] Instance NumentaPreprocessor_class `{Hashlib, Random, Numpy, Pandas, Pyproj} :
  AbstractPreprocessor NumentaPreprocessor.t := {
  __name__ := "NumentaPreprocessor";
  _process := NumentaPreprocessor._process
}.

(** ** AltGeoPreprocessor *)

Module AltGeoPreprocessor.
Record t := {
  g_prec : Z;
  s_prec : Z;
  s_max : Q
}.

(** [AltGeoPreprocessor()] with the defaults of [__init__]. *)
Definition default : t := {| g_prec := 6; s_prec := 1; s_max := 140 |}.

(** The loop of [__encode] from row [j] on: [mat[j][int(i)] = 1] for each
    character [i] of [num_str].  The row is looked up before [int(i)] is
    evaluated. *)
Fixpoint encode_from (j : nat) (num_str : string) (mat : list (list Z))
    : res (list (list Z)) :=
  match num_str with
  | EmptyString => Ok mat
  | String i rest =>
      match mat !! j with
      | None => Raise IndexError
      | Some row =>
          d ← int_of_char i;
          row' ← set_index row d 1;
          encode_from (S j) rest (<[j := row']> mat)
      end
  end.

Definition __encode (num_str : string) (mat : list (list Z)) : res (list (list Z)) :=
  encode_from 0 num_str mat.

(** [gconst], [sconst], [gdigits] and [sdigits] of [_process]. *)
Definition gconst (self : t) : Q := ((10 # 1) ^ g_prec self)%Q.
Definition sconst (self : t) : Q := ((10 # 1) ^ s_prec self)%Q.
Definition gdigits (self : t) : nat :=
  String.length (str (int_of_float (360 * gconst self)%Q)).
Definition sdigits (self : t) : nat :=
  String.length (str (int_of_float (s_max self * sconst self)%Q)).

(** The three digit strings of one record. *)
Definition latitude_str (self : t) (latitude : Q) : string :=
  str (Qfloor ((latitude + 90) * gconst self)%Q).
Definition longitude_str (self : t) (longitude : Q) : string :=
  str (Qfloor ((longitude + 180) * gconst self)%Q).
Definition speed_str (self : t) (speed : Q) : string :=
  str (Qfloor (speed * sconst self)%Q).

(** The body of the loop of [_process]: the vector [v] of one record. *)
Definition encode_record (self : t) (record : Q * Q * Q) : res (list Z) :=
  let '(speed, latitude, longitude) := record in
  let latitude := latitude_str self latitude in
  let longitude := longitude_str self longitude in
  let speed := speed_str self speed in
  let lat := np_zeros (gdigits self) 10 in
  let long := np_zeros (gdigits self) 10 in
  let spd := np_zeros (sdigits self) 10 in
  lat ← __encode latitude lat;
  long ← __encode longitude long;
  spd ← __encode speed spd;
  mret (concat lat ++ concat long ++ concat spd)%list.

Section Methods.
Context `{Random, Pandas}.

Definition _process (self : t) (filename : string) (cache : Cache) : io Cache :=
  data ← pd_read_csv filename;
  speeds ← lift (column data "speed");
  latitudes ← lift (column data "latitude");
  longitudes ← lift (column data "longitude");
  values ← lift (mapM (encode_record self) (zip3 speeds latitudes longitudes));
  mret {| verify := verify cache; data := Some values |}.
End Methods.
End AltGeoPreprocessor.

#[export] Instance AltGeoPreprocessor_class `{Random, Pandas} :
  AbstractPreprocessor AltGeoPreprocessor.t := {
  __name__ := "AltGeoPreprocessor";
  _process := AltGeoPreprocessor._process
}.

(** ** Vocabulary of the statements

    Functions and predicates the properties below are stated with.  None
    is code of the module: each is related to the embedding above by a
    lemma. *)

(** A stateful call whose result does not depend on the world and which
    changes the generator only. *)
Definition pure_call `{Random} {A} (m : io A) (r : res A) : Prop :=
  forall st, exists g, m st = (r, {| files := files st; gen := g |}).

(** A stateful call that leaves every file as it found it. *)
Definition keeps_files `{Random} {A} (m : io A) : Prop :=
  forall st, files (m st).2 = files st.

(** A stateful call whose result is [r] in every world and which leaves
    the generator in the state [g], whatever state it found. *)
Definition seeded_call `{Random} {A} (m : io A) (r : res A) (g : rng) : Prop :=
  forall st, m st = (r, {| files := files st; gen := g |}).

(** An entry of an encoding vector is 0 or 1. *)
Definition bit (x : Z) : Prop := x = 0 \/ x = 1.

Section ContentCacheVocabulary.
Context `{Hashlib, Random} {P : Type} `{!AbstractPreprocessor P}.

(** [process] with the cache on, when the load finds no entry under the
    hash: the hook runs on the dictionary that holds the hash, its result
    is saved and returned; an exception of the hook leaves [process]
    before anything is saved. *)
Definition recompute (self : P) (csvfile cachedfile : string) (h : string)
    (st : World rng) : res (option tensor) * World rng :=
  match _process self csvfile {| verify := h; data := None |} st with
  | (Ok cache, st') =>
      (Ok (data cache),
       {| files := <[cachedfile := Pickled cache]> (files st'); gen := gen st' |})
  | (Raise e, st') => (Raise e, st')
  end.
End ContentCacheVocabulary.

Section SpatialVocabulary.
Context `{Hashlib, Random, Numpy}.
Import NumentaPreprocessor.

(** The order value of a cell: the draw that [__coordinate_order]
    returns in every world. *)
Definition order_value (c : Z * Z) : Z :=
  match __hash_coordinate c.1 c.2 with
  | Ok h => (getrandbits 64 (seed h)).1
  | Raise _ => 0
  end.

(** The indices [__select] keeps, for [1 <= w]. *)
Definition top_indices (self : t) (neighbors : list (Z * Z)) : list nat :=
  drop (length neighbors - Z.to_nat (w self)) (argsort (order_value <$> neighbors)).

(** The bit index of a cell: the outcome of [__coordinate_bit] in every
    world. *)
Definition bit_index (self : t) (c : Z * Z) : res Z :=
  h ← __hash_coordinate c.1 c.2;
  if n self - 1 <? 0 then Raise ValueError
  else Ok (randint 0 (n self - 1) (seed h)).1.

(** The selection, as a function of the window. *)
Definition select_of (self : t) (neighbors : list (Z * Z)) : res (list (Z * Z)) :=
  take_rows neighbors (slice_from (- w self) (argsort (order_value <$> neighbors))).

(** The vector of one data point, for an output of [len] positions. *)
Definition vector_of `{Pyproj} (self : t) (data_point : Q * Q * Q) (len : nat) : res (list Z) :=
  let '(speed, latitude, longitude) := data_point in
  '(latitude, longitude) ← __map_transform self latitude longitude;
  radius ← __radius self speed;
  top ← select_of self (__neighbors latitude longitude radius);
  indices ← mapM (bit_index self) top;
  set_indices (replicate len 0) indices 1.

(** The vector [_process] computes for one record. *)
Definition encode_point `{Pyproj} (self : t) (data_point : Q * Q * Q) : res (list Z) :=
  output ← torch_zeros (n self);
  vector_of self data_point (length output).

(** The cells whose bits [__generate_vector] sets for a data point. *)
Definition selected_cells `{Pyproj} (self : t) (data_point : Q * Q * Q)
    : res (list (Z * Z)) :=
  let '(speed, latitude, longitude) := data_point in
  '(latitude, longitude) ← __map_transform self latitude longitude;
  radius ← __radius self speed;
  select_of self (__neighbors latitude longitude radius).
End SpatialVocabulary.

(** The exception a spatial encoder raises on every record, by its
    configuration, in the order the statements of [_process] and
    [__generate_vector] meet it; [None] when it encodes. *)
Definition config_error (self : NumentaPreprocessor.t) : option exn :=
  if NumentaPreprocessor.n self <? 0 then Some RuntimeError
  else if NumentaPreprocessor.scale self =? 0 then Some ZeroDivisionError
  else if NumentaPreprocessor.w self <? 0 then Some ValueError
  else if NumentaPreprocessor.n self =? 0 then Some ValueError
  else None.

(** The index [a] of the cell of a coordinate [y] on a grid of step [s]:
    the quotient truncated towards zero, so that the cell 0 spans
    [(-s, s)] and every other cell one step. *)
Definition truncated_cell (s : Z) (y : Q) (a : Z) : Prop :=
  ((0 <= y)%Q -> 0 <= a /\ (inject_Z (a * s) <= y)%Q /\ (y < inject_Z ((a + 1) * s))%Q) /\
  ((y <= 0)%Q -> a <= 0 /\ (inject_Z ((a - 1) * s) < y)%Q /\ (y <= inject_Z (a * s))%Q).

(** The characters [int_of_char] accepts, and their values. *)
Definition is_digit (c : ascii) : bool :=
  let n := Z.of_nat (nat_of_ascii c) in (48 <=? n) && (n <=? 57).

Definition digit_value (c : ascii) : Z := Z.of_nat (nat_of_ascii c) - 48.

Fixpoint all_digits (s : string) : bool :=
  match s with
  | EmptyString => true
  | String c s' => is_digit c && all_digits s'
  end.

(** A digit string fits [width] rows when it is no longer than [width]
    and holds decimal digits only. *)
Definition fits (width : nat) (s : string) : bool :=
  (String.length s <=? width)%nat && all_digits s.

(** The row of ten entries with the one at position [d] set, and the
    rows of the digits of a string. *)
Definition one_hot (d : Z) : list Z := <[Z.to_nat d := 1]> (replicate 10 0).

Fixpoint digit_rows (s : string) : list (list Z) :=
  match s with
  | EmptyString => []
  | String c s' => one_hot (digit_value c) :: digit_rows s'
  end.

(** The rows [__encode] leaves in a zero matrix of [width] rows: a one-hot
    row per character from the top, zero rows below. *)
Definition blocks (width : nat) (s : string) : list (list Z) :=
  (digit_rows s ++ np_zeros (width - String.length s) 10)%list.

(** The [b]-th 10-wide block of a vector and the number of set bits. *)
Definition block (v : list Z) (b : nat) : list Z := take 10 (drop (10 * b) v).
Definition ones (l : list Z) : nat := count_occ Z.eq_dec l 1.

Section DigitVocabulary.
Import AltGeoPreprocessor.

(** A record fits when its three digit strings fit their matrices. *)
Definition record_fits (self : t) (record : Q * Q * Q) : bool :=
  let '(speed, latitude, longitude) := record in
  fits (gdigits self) (latitude_str self latitude) &&
  fits (gdigits self) (longitude_str self longitude) &&
  fits (sdigits self) (speed_str self speed).

(** The rows of the three matrices of a record that fits, in the order
    [_process] concatenates them. *)
Definition record_rows (self : t) (record : Q * Q * Q) : list (list Z) :=
  let '(speed, latitude, longitude) := record in
  (blocks (gdigits self) (latitude_str self latitude) ++
   blocks (gdigits self) (longitude_str self longitude) ++
   blocks (sdigits self) (speed_str self speed))%list.
End DigitVocabulary.

(** ** A small instance of the libraries

    Stand-ins that satisfy the interfaces and compute, for running the
    encoders on concrete inputs: a 128-bit polynomial checksum printed as
    32 hexadecimal digits in place of MD5, a linear congruential generator
    in place of the Mersenne Twister. *)

Module Sample.
Definition hex_char (d : Z) : ascii :=
  ascii_of_nat (Z.to_nat (if d <? 10 then 48 + d else 87 + d)).

Fixpoint hex_of (digits : nat) (v : Z) : string :=
  match digits with
  | O => EmptyString
  | S k => hex_of k (v / 16) ++ String (hex_char (v mod 16)) EmptyString
  end.

Fixpoint checksum (acc : Z) (s : string) : Z :=
  match s with
  | EmptyString => acc
  | String c s' => checksum ((acc * 1000003 + Z.of_nat (nat_of_ascii c) + 1) mod 2 ^ 128) s'
  end.

Definition md5_hexdigest (s : string) : string := hex_of 32 (checksum 7 s).

Definition step (g : Z) : Z := (6364136223846793005 * g + 1442695040888963407) mod 2 ^ 64.
Definition getrandbits (k : Z) (g : Z) : Z * Z := (step g mod 2 ^ k, step g).
Definition randint (a b : Z) (g : Z) : Z * Z := (a + step g mod (b - a + 1), step g).

(** The indices sorted by their values with stdpp's merge sort. *)
Definition argsort (l : list Z) : list nat :=
  merge_sort (le_at l) (seq 0 (length l)).

(** A reader for the three-column files of whole numbers: the header
    [speed,latitude,longitude], then one line per record. *)
Definition nl : string := String (ascii_of_nat 10) EmptyString.

Fixpoint fields (s : string) : list string :=
  match s with
  | EmptyString => [EmptyString]
  | String c s' =>
      if decide (c = ascii_of_nat 44) then EmptyString :: fields s'
      else if decide (c = ascii_of_nat 10) then fields s'
      else match fields s' with
           | f :: fs => String c f :: fs
           | [] => [String c EmptyString]
           end
  end.

Fixpoint digits_from (acc : Z) (s : string) : res Z :=
  match s with
  | EmptyString => Ok acc
  | String c s' => d ← int_of_char c; digits_from (10 * acc + d) s'
  end.

Definition number (s : string) : res Q :=
  match s with
  | EmptyString => Raise ValueError
  | String c s' =>
      if decide (c = ascii_of_nat 45)
      then match s' with
           | EmptyString => Raise ValueError
           | _ => v ← digits_from 0 s'; mret (inject_Z (- v))
           end
      else v ← digits_from 0 s; mret (inject_Z v)
  end.

Definition row (line : string) : res (Q * Q * Q) :=
  match fields line with
  | [a; b; c] => x ← number a; y ← number b; z ← number c; mret (x, y, z)
  | _ => Raise ValueError
  end.

Definition frame (rows : list (Q * Q * Q)) : gmap string (list Q) :=
  <["speed" := rows.*1.*1]> (<["latitude" := rows.*1.*2]> (<["longitude" := rows.*2]> ∅)).

Definition read_csv (lines : list string) : res (gmap string (list Q)) :=
  match lines with
  | [] => Raise ValueError
  | header :: body =>
      if decide (fields header = ["speed"; "latitude"; "longitude"])
      then rows ← mapM row body; mret (frame rows)
      else Raise ValueError
  end.

Definition nrows (lines : list string) : nat := length (tail lines).

(** A file of two records, and one whose second record has a negative
    speed and whose third has a speed of five digits once scaled. *)
Definition csv : list string :=
  ["speed,latitude,longitude" ++ nl; "5,40,-73" ++ nl; "0,-89,10" ++ nl].

Definition csv_out_of_range : list string :=
  ["speed,latitude,longitude" ++ nl; "5,40,-73" ++ nl; "-1,40,-73" ++ nl;
   "1000,40,-73" ++ nl].

(** The projection replaced by a scaling to metres per degree at the equator. *)
Definition proj (x y : Q) : Q * Q := (111319 * x, 111319 * y)%Q.
End Sample.

(** A world that holds the text file of lines [csv] under [data.csv]
    and, when [cached] is given, that file under [./processed/data.p]. *)
Definition sample_world (csv : list string) (cached : option file) : World Z := {|
  files :=
    match cached with
    | Some f => <["./processed/data.p" := f]> {["data.csv" := Text csv]}
    | None => {["data.csv" := Text csv]}
    end;
  gen := 0
|}.

(** * Properties *)

(** Proves a goal about an integer [d] known to lie in [0, n), for a
    literal [n], by trying each value. *)
Ltac enumerate d n :=
  let Hcases := fresh "Hcases" in
  assert (Hcases : Exists (eq d) (seqZ 0 n))
    by (apply Exists_exists; exists d; split; [apply elem_of_seqZ; lia | reflexivity]);
  cbv [seqZ] in Hcases; simpl in Hcases;
  repeat (apply Exists_cons in Hcases as [-> | Hcases]; [reflexivity |]);
  now apply Exists_nil in Hcases.

(** ** The sample libraries satisfy the interfaces *)

Lemma string_length_append (s1 s2 : string) :
  String.length (s1 ++ s2) = (String.length s1 + String.length s2)%nat.
Proof. induction s1 as [|c s1 IH]; simpl; [reflexivity | now rewrite IH]. Qed.

Lemma int16_from_append (s1 s2 : string) (acc : Z) :
  int16_from acc (s1 ++ s2) =
  match int16_from acc s1 with
  | Some a => int16_from a s2
  | None => None
  end.
Proof.
  revert acc. induction s1 as [|c s1 IH]; intros acc; simpl; [reflexivity |].
  destruct (hex_digit c); [apply IH | reflexivity].
Qed.

Lemma hex_digit_hex_char (d : Z) :
  0 <= d < 16 -> hex_digit (Sample.hex_char d) = Some d.
Proof.
  intros Hd. enumerate d 16.
Qed.

Lemma hex_of_length (k : nat) (v : Z) : String.length (Sample.hex_of k v) = k.
Proof.
  revert v. induction k as [|k IH]; intros v; simpl; [reflexivity |].
  rewrite string_length_append, IH. simpl. lia.
Qed.

Lemma int16_from_hex_of (k : nat) (v acc : Z) :
  is_Some (int16_from acc (Sample.hex_of k v)).
Proof.
  revert v acc. induction k as [|k IH]; intros v acc; simpl; [now eexists |].
  rewrite int16_from_append. destruct (IH (v / 16) acc) as [a ->]. simpl.
  rewrite hex_digit_hex_char; [now eexists |].
  apply Z.mod_pos_bound. lia.
Qed.

#[export] Program Instance Sample_hashlib : Hashlib := {
  md5_hexdigest := Sample.md5_hexdigest
}.
Next Obligation. intros s. apply hex_of_length. Qed.
Next Obligation.
  intros s. unfold int16, Sample.md5_hexdigest.
  pose proof (hex_of_length 32 (Sample.checksum 7 s)) as Hlen.
  destruct (Sample.hex_of 32 (Sample.checksum 7 s)) eqn:E; [discriminate |].
  rewrite <- E. apply int16_from_hex_of.
Qed.

#[export] Program Instance Sample_random : Random := {
  rng := Z;
  seed := fun a => a;
  getrandbits := Sample.getrandbits;
  randint := Sample.randint
}.
Next Obligation.
  intros k g Hk. simpl. apply Z.mod_pos_bound. now apply Z.pow_pos_nonneg.
Qed.
Next Obligation.
  intros a b g Hab. simpl.
  pose proof (Z.mod_pos_bound (Sample.step g) (b - a + 1)). lia.
Qed.

Lemma le_at_transitive (l : list Z) : Transitive (le_at l).
Proof. unfold le_at. intros i j k. lia. Qed.

Lemma le_at_total (l : list Z) : Total (le_at l).
Proof. unfold le_at. intros i j. lia. Qed.

#[export] Program Instance Sample_numpy : Numpy := {
  argsort := Sample.argsort
}.
Next Obligation. intros l. apply merge_sort_Permutation. Qed.
Next Obligation.
  intros l. apply StronglySorted_merge_sort;
    [apply le_at_transitive | apply le_at_total].
Qed.

(** A generator whose every draw is the least value of its range: all
    order values tie. *)
Program Definition Tied_random : Random := {|
  rng := unit;
  seed := fun _ => tt;
  getrandbits := fun _ g => (0, g);
  randint := fun a _ g => (a, g)
|}.
Next Obligation. intros k g Hk. simpl. split; [lia | now apply Z.pow_pos_nonneg]. Qed.
Next Obligation. intros a b g Hab. simpl. lia. Qed.

Lemma mapM_Ok {A B} (f : A -> res B) (l : list A) (k : list B) :
  mapM f l = Ok k <-> Forall2 (fun a b => f a = Ok b) l k.
Proof.
  revert k. induction l as [|a l IH]; intros k; simpl.
  - split; [intros [= <-]; constructor | now inversion 1].
  - split.
    + destruct (f a) as [b|] eqn:Ha; simpl; [| discriminate].
      destruct (mapM f l) as [k'|] eqn:Hl; simpl; [| discriminate].
      intros [= <-]. constructor; [exact Ha | now apply IH].
    + inversion 1 as [|? b ? k' Ha Hl]; subst. rewrite Ha. simpl.
      apply IH in Hl. now rewrite Hl.
Qed.

Lemma mapM_Ok_length {A B} (f : A -> res B) (l : list A) (k : list B) :
  mapM f l = Ok k -> length k = length l.
Proof. intros Hk. apply mapM_Ok in Hk. symmetry. eapply Forall2_length, Hk. Qed.

#[export] Program Instance Sample_pandas : Pandas := {
  read_csv := Sample.read_csv;
  nrows := Sample.nrows
}.
Next Obligation.
  intros [|header body] df c col; simpl; [discriminate |].
  case_decide; [| discriminate].
  destruct (mapM Sample.row body) as [rows|] eqn:Hrows; [| discriminate].
  apply mapM_Ok_length in Hrows.
  intros [= <-]. unfold Sample.frame, Sample.nrows. simpl.
  rewrite !lookup_insert, lookup_empty.
  repeat case_decide; intros [= <-]; rewrite ?length_fmap; congruence.
Qed.

#[export] Instance Sample_pyproj : Pyproj := {| proj := Sample.proj |}.

(** ** DeterministicOrder: the seed, the order value and the bit index *)

Section DeterministicOrder.
Context `{Hashlib, Random}.
Import NumentaPreprocessor.

Lemma hash_coordinate_ok (a b : Z) :
  exists m, int16 (md5_hexdigest (str a ++ "," ++ str b)) = Some m /\
            __hash_coordinate a b = Ok (m mod 2 ^ 64).
Proof.
  destruct (md5_hexdigest_hex (str a ++ "," ++ str b)) as [m Hm].
  exists m. split; [exact Hm |]. unfold __hash_coordinate. now rewrite Hm.
Qed.

Lemma coordinate_order_run (a b h : Z) (st : World rng) :
  __hash_coordinate a b = Ok h ->
  __coordinate_order a b st =
    (Ok (getrandbits 64 (seed h)).1,
     {| files := files st; gen := (getrandbits 64 (seed h)).2 |}).
Proof.
  intros Hh. unfold __coordinate_order, mbind, io_bind, lift. rewrite Hh.
  unfold random_seed, random_getrandbits. simpl.
  now destruct (getrandbits 64 (seed h)).
Qed.

Lemma coordinate_bit_run (self : t) (a b h : Z) (st : World rng) :
  __hash_coordinate a b = Ok h -> 0 < n self ->
  __coordinate_bit self a b st =
    (Ok (randint 0 (n self - 1) (seed h)).1,
     {| files := files st; gen := (randint 0 (n self - 1) (seed h)).2 |}).
Proof.
  intros Hh Hn. unfold __coordinate_bit, mbind, io_bind, lift. rewrite Hh.
  unfold random_seed, random_randint, py_randint. simpl.
  destruct (Z.ltb_spec (n self - 1) 0) as [Hlt | _]; [lia |].
  now destruct (randint 0 (n self - 1) (seed h)).
Qed.

(** C2.  For a key [(a, b)] the seed is the MD5 digest of the decimal
    string "a,b", read as a hexadecimal number and reduced modulo 2^64.
    The order value and the bit index are the first draw
    ([getrandbits(64)], [randint(0, n - 1)]) of the generator seeded with
    it just before: each is the same in every world, whatever calls came
    before and whatever state they left the generator in; and the bit
    index lies in [0, n). *)
Theorem coordinate_draws_determined_by_key (self : t) (a b : Z) :
  0 < n self ->
  exists m h,
    int16 (md5_hexdigest (str a ++ "," ++ str b)) = Some m /\
    h = m mod 2 ^ 64 /\
    __hash_coordinate a b = Ok h /\
    (forall st, (__coordinate_order a b st).1 = Ok (getrandbits 64 (seed h)).1) /\
    (forall st, (__coordinate_bit self a b st).1 = Ok (randint 0 (n self - 1) (seed h)).1) /\
    (forall st st', (__coordinate_order a b st).1 = (__coordinate_order a b st').1 /\
                    (__coordinate_bit self a b st).1 = (__coordinate_bit self a b st').1) /\
    0 <= (randint 0 (n self - 1) (seed h)).1 < n self.
Proof.
  intros Hn. destruct (hash_coordinate_ok a b) as (m & Hm & Hh).
  exists m, (m mod 2 ^ 64). repeat split; try done.
  - intros st. now rewrite (coordinate_order_run a b _ st Hh).
  - intros st. now rewrite (coordinate_bit_run self a b _ st Hh Hn).
  - now rewrite (coordinate_order_run a b _ st Hh), (coordinate_order_run a b _ st' Hh).
  - now rewrite (coordinate_bit_run self a b _ st Hh Hn), (coordinate_bit_run self a b _ st' Hh Hn).
  - apply randint_range. lia.
  - pose proof (randint_range 0 (n self - 1) (seed (m mod 2 ^ 64))). lia.
Qed.
End DeterministicOrder.

Lemma coordinate_draws_determined_by_key_witness :
  exists m h,
    int16 (md5_hexdigest (str 3 ++ "," ++ str (-4))) = Some m /\
    h = m mod 2 ^ 64 /\
    NumentaPreprocessor.__hash_coordinate 3 (-4) = Ok h /\
    (forall st, (NumentaPreprocessor.__coordinate_order 3 (-4) st).1
                = Ok (getrandbits 64 (seed h)).1) /\
    (forall st, (NumentaPreprocessor.__coordinate_bit NumentaPreprocessor.default 3 (-4) st).1
                = Ok (randint 0 (1000 - 1) (seed h)).1) /\
    (forall st st',
        (NumentaPreprocessor.__coordinate_order 3 (-4) st).1
        = (NumentaPreprocessor.__coordinate_order 3 (-4) st').1 /\
        (NumentaPreprocessor.__coordinate_bit NumentaPreprocessor.default 3 (-4) st).1
        = (NumentaPreprocessor.__coordinate_bit NumentaPreprocessor.default 3 (-4) st').1) /\
    0 <= (randint 0 (1000 - 1) (seed h)).1 < 1000.
Proof.
  apply (coordinate_draws_determined_by_key
           (H := Sample_hashlib) (H0 := Sample_random)
           NumentaPreprocessor.default 3 (-4)).
  reflexivity.
Defined.

(** ** ContentCache: the hash and the template method *)

Lemma string_append_cons (c : ascii) (s1 s2 : string) :
  String c s1 ++ s2 = String c (s1 ++ s2).
Proof. reflexivity. Qed.

Lemma string_append_assoc (s1 s2 s3 : string) : (s1 ++ s2) ++ s3 = s1 ++ (s2 ++ s3).
Proof.
  induction s1 as [|c s1 IH]; [reflexivity |].
  rewrite !string_append_cons. f_equal. exact IH.
Qed.

Lemma string_append_split (s1 s2 t1 t2 : string) :
  s1 ++ t1 = s2 ++ t2 -> String.length t1 = String.length t2 ->
  s1 = s2 /\ t1 = t2.
Proof.
  revert s2. induction s1 as [|c1 s1 IH]; intros [|c2 s2] Heq Hlen;
    rewrite ?string_append_cons in Heq.
  - now split.
  - apply (f_equal String.length) in Heq.
    rewrite ?string_length_append in Heq. simpl in Heq.
    rewrite ?string_length_append in Heq. lia.
  - apply (f_equal String.length) in Heq.
    rewrite ?string_length_append in Heq. simpl in Heq.
    rewrite ?string_length_append in Heq. lia.
  - injection Heq as -> Heq. destruct (IH _ Heq Hlen) as [-> ->]. now split.
Qed.

Section ContentCache.
Context `{Hashlib, Random} {P : Type} `{!AbstractPreprocessor P}.
Import AbstractPreprocessor.

(** The hash [process] computes for a text file of lines [ls]. *)
Lemma gen_hash_run (self : P) (filename : string) (ls : list string) (st : World rng) :
  files st !! filename = Some (Text ls) ->
  __gen_hash self filename st =
    (Ok (md5_hexdigest (String.concat "" ls ++ __name__ P)), st).
Proof.
  intros Hf. unfold __gen_hash, mbind, io_bind, readlines. now rewrite Hf.
Qed.

Lemma md5_hexdigest_nonempty (s : string) : md5_hexdigest s <> "".
Proof.
  intros E. pose proof (md5_hexdigest_length s) as Hlen. now rewrite E in Hlen.
Qed.

Lemma check_file_absent (cachedfile : string) (cache : Cache) (st : World rng) :
  files st !! cachedfile = None -> verify cache <> "" ->
  __check_file cachedfile cache st = (Ok (false, cache), st).
Proof.
  intros Hf Hv. unfold __check_file, pickle_load. rewrite Hf. simpl.
  destruct (String.eqb_spec (verify cache) ""); [contradiction | reflexivity].
Qed.

Lemma check_file_pickled (cachedfile : string) (cache e : Cache) (st : World rng) :
  files st !! cachedfile = Some (Pickled e) ->
  __check_file cachedfile cache st =
    if decide (verify cache = verify e)
    then (Ok (true, {| verify := verify cache; data := data e |}), st)
    else (Ok (false, cache), st).
Proof.
  intros Hf. unfold __check_file, pickle_load. rewrite Hf.
  destruct (String.eqb_spec (verify cache) (verify e)); now case_decide.
Qed.

Lemma check_file_text (cachedfile : string) (cache : Cache) (ls : list string) (st : World rng) :
  files st !! cachedfile = Some (Text ls) ->
  __check_file cachedfile cache st = (Raise UnpicklingError, st).
Proof.
  intros Hf. unfold __check_file, pickle_load. now rewrite Hf.
Qed.

Lemma process_miss (self : P) (csvfile cachedfile : string) (ls : list string) (st : World rng) :
  files st !! csvfile = Some (Text ls) ->
  (files st !! cachedfile = None \/
   exists e, files st !! cachedfile = Some (Pickled e) /\
             verify e <> md5_hexdigest (String.concat "" ls ++ __name__ P)) ->
  process self csvfile true cachedfile st =
    recompute self csvfile cachedfile
      (md5_hexdigest (String.concat "" ls ++ __name__ P)) st.
Proof.
  intros Hcsv Hmiss. unfold process, recompute, mbind at 1, io_bind at 1.
  rewrite (gen_hash_run self _ _ _ Hcsv).
  unfold mbind at 1, io_bind at 1. simpl.
  destruct Hmiss as [Hnone | (e & He & Hne)].
  - rewrite check_file_absent; [| done | apply md5_hexdigest_nonempty].
    unfold mbind, io_bind, __save, pickle_dump, mret, io_ret.
    now destruct (_process self csvfile _ st) as [[c | x] st'].
  - rewrite (check_file_pickled _ _ _ _ He). simpl.
    case_decide as Hv; [now symmetry in Hv |].
    unfold mbind, io_bind, __save, pickle_dump, mret, io_ret.
    now destruct (_process self csvfile _ st) as [[c | x] st'].
Qed.

Lemma process_hit (self : P) (csvfile cachedfile : string) (ls : list string)
    (e : Cache) (st : World rng) :
  files st !! csvfile = Some (Text ls) ->
  files st !! cachedfile = Some (Pickled e) ->
  verify e = md5_hexdigest (String.concat "" ls ++ __name__ P) ->
  process self csvfile true cachedfile st = (Ok (data e), st).
Proof.
  intros Hcsv He Hv. unfold process, mbind at 1, io_bind at 1.
  rewrite (gen_hash_run self _ _ _ Hcsv).
  unfold mbind at 1, io_bind at 1. simpl.
  rewrite (check_file_pickled _ _ _ _ He). simpl.
  case_decide as Hv'; [reflexivity | now symmetry in Hv].
Qed.

Lemma process_unreadable (self : P) (csvfile cachedfile : string) (ls ls' : list string)
    (st : World rng) :
  files st !! csvfile = Some (Text ls) ->
  files st !! cachedfile = Some (Text ls') ->
  process self csvfile true cachedfile st = (Raise UnpicklingError, st).
Proof.
  intros Hcsv Hc. unfold process, mbind at 1, io_bind at 1.
  rewrite (gen_hash_run self _ _ _ Hcsv).
  unfold mbind at 1, io_bind at 1. simpl.
  now rewrite (check_file_text _ _ _ _ Hc).
Qed.
End ContentCache.

Section ContentCacheClaims.
Context `{Hashlib, Random} {P : Type} `{!AbstractPreprocessor P}.
Import AbstractPreprocessor.



End ContentCacheClaims.

Lemma class_names_differ (s1 s2 : string) :
  s1 ++ "NumentaPreprocessor" <> s2 ++ "AltGeoPreprocessor".
Proof.
  change "NumentaPreprocessor" with ("Nument" ++ "aPreprocessor").
  change "AltGeoPreprocessor" with ("AltGe" ++ "oPreprocessor").
  rewrite <- !string_append_assoc. intros Heq.
  apply string_append_split in Heq as [_ Heq]; [discriminate | reflexivity].
Qed.

(** C1, as amended.  The verify hash is the MD5 digest of the whole text
    of the input file followed by the class name of the encoder.  It does
    not depend on the parameters: encoders of one class, however
    configured, get the same hash for the same file.  The hashed text
    determines the text of the file and the class: the texts hashed for
    the two classes never coincide, and for one class they coincide only
    for the same file text. *)
Theorem gen_hash_of_content_and_class_name `{Hashlib, Random, Numpy, Pandas, Pyproj} :
  (forall (self self' : NumentaPreprocessor.t) filename st,
      AbstractPreprocessor.__gen_hash self filename st
      = AbstractPreprocessor.__gen_hash self' filename st) /\
  (forall (self self' : AltGeoPreprocessor.t) filename st,
      AbstractPreprocessor.__gen_hash self filename st
      = AbstractPreprocessor.__gen_hash self' filename st) /\
  (forall (self : NumentaPreprocessor.t) filename ls st,
      files st !! filename = Some (Text ls) ->
      AbstractPreprocessor.__gen_hash self filename st
      = (Ok (md5_hexdigest (String.concat "" ls ++ "NumentaPreprocessor")), st)) /\
  (forall (self : AltGeoPreprocessor.t) filename ls st,
      files st !! filename = Some (Text ls) ->
      AbstractPreprocessor.__gen_hash self filename st
      = (Ok (md5_hexdigest (String.concat "" ls ++ "AltGeoPreprocessor")), st)) /\
  (forall ls ls',
      String.concat "" ls ++ __name__ NumentaPreprocessor.t
      <> String.concat "" ls' ++ __name__ AltGeoPreprocessor.t) /\
  (forall ls ls',
      String.concat "" ls ++ __name__ NumentaPreprocessor.t
      = String.concat "" ls' ++ __name__ NumentaPreprocessor.t ->
      String.concat "" ls = String.concat "" ls') /\
  (forall ls ls',
      String.concat "" ls ++ __name__ AltGeoPreprocessor.t
      = String.concat "" ls' ++ __name__ AltGeoPreprocessor.t ->
      String.concat "" ls = String.concat "" ls').
Proof.
  repeat split.
  - intros self filename ls st Hf. exact (gen_hash_run self filename ls st Hf).
  - intros self filename ls st Hf. exact (gen_hash_run self filename ls st Hf).
  - intros ls ls'. apply class_names_differ.
  - intros ls ls' Heq. now apply string_append_split in Heq as [? _].
  - intros ls ls' Heq. now apply string_append_split in Heq as [? _].
Qed.




(** C1 as stated fails: the digit encoder with [s_max = 140] and with
    [s_max = 1400], and the spatial encoder with [scale = 5] and with
    [scale = 6], get the same hash for the same file; the second digit
    encoder, run after the first over the same file and cache path, is
    handed the batch of the first, which is not the batch it computes. *)
Lemma changed_parameter_keeps_hash_and_hits_cache :
  let a := AltGeoPreprocessor.default in
  let b := {| AltGeoPreprocessor.g_prec := 6; AltGeoPreprocessor.s_prec := 1;
              AltGeoPreprocessor.s_max := 1400 |} in
  let c := NumentaPreprocessor.default in
  let d := {| NumentaPreprocessor.w := 21; NumentaPreprocessor.n := 1000;
              NumentaPreprocessor.scale := 6; NumentaPreprocessor.timestep := 10 |} in
  let st := sample_world Sample.csv None in
  let run_a := AbstractPreprocessor.process a "data.csv" true "./processed/data.p" st in
  let run_b := AbstractPreprocessor.process b "data.csv" true "./processed/data.p" run_a.2 in
  let own_b := AbstractPreprocessor.process b "data.csv" false "./processed/data.p" run_a.2 in
  (AbstractPreprocessor.__gen_hash a "data.csv" st).1
  = (AbstractPreprocessor.__gen_hash b "data.csv" st).1 /\
  (AbstractPreprocessor.__gen_hash c "data.csv" st).1
  = (AbstractPreprocessor.__gen_hash d "data.csv" st).1 /\
  is_ok (AbstractPreprocessor.__gen_hash a "data.csv" st).1 = true /\
  is_ok run_a.1 = true /\
  run_b = run_a /\
  is_ok own_b.1 = true /\
  own_b.1 <> run_a.1.
Proof.
  cbv zeta. repeat (split; [vm_compute; reflexivity |]).
  intros Heq.
  apply (f_equal (fun r => match r with
                           | Ok (Some (v :: _)) => length v
                           | _ => 0%nat
                           end)) in Heq.
  vm_compute in Heq. discriminate.
Qed.

(** ** NeighborhoodSampler: the radius *)

Lemma round_comp (x y : Q) : (x == y)%Q -> round x = round y.
Proof.
  intros Hxy. unfold round. rewrite (Qfloor_comp _ _ Hxy).
  assert (Hc : ((x - inject_Z (Qfloor y) ?= 1 # 2) = (y - inject_Z (Qfloor y) ?= 1 # 2))%Q).
  { apply Qcompare_comp; [now rewrite Hxy | reflexivity]. }
  now rewrite Hc.
Qed.

Lemma round_floor (x : Q) : Qfloor x <= round x <= Qfloor x + 1.
Proof.
  unfold round. destruct (_ ?= _)%Q; [destruct (Z.even _) | |]; lia.
Qed.

Lemma round_le (x y : Q) : (x <= y)%Q -> round x <= round y.
Proof.
  intros Hxy. pose proof (Qfloor_resp_le _ _ Hxy) as Hf.
  destruct (Z.eq_dec (Qfloor x) (Qfloor y)) as [Heq | Hne].
  - unfold round. rewrite Heq.
    destruct (Qcompare_spec (x - inject_Z (Qfloor y)) (1 # 2)) as [Hx | Hx | Hx];
    destruct (Qcompare_spec (y - inject_Z (Qfloor y)) (1 # 2)) as [Hy | Hy | Hy];
      try (destruct (Z.even (Qfloor y))); try lia; exfalso; Lqa.lra.
  - pose proof (round_floor x). pose proof (round_floor y). lia.
Qed.

Lemma py_div_ok (x : Q) (s : Z) : s <> 0 -> py_div x (inject_Z s) = Ok (x / inject_Z s)%Q.
Proof.
  intros Hs. unfold py_div.
  destruct (Qeq_bool (inject_Z s) 0) eqn:E; [| reflexivity].
  apply Qeq_bool_iff in E. unfold Qeq in E. simpl in E. lia.
Qed.

Lemma ceil_half_sqrt_pred_nonneg (w : Z) : 0 <= ceil_half_sqrt_pred w.
Proof.
  unfold ceil_half_sqrt_pred. apply Z.div_pos; [apply Z.sqrt_up_nonneg | lia].
Qed.

Lemma ceil_half_sqrt_pred_covers (w r : Z) :
  0 <= w -> ceil_half_sqrt_pred w <= r -> w <= (2 * r + 1) * (2 * r + 1).
Proof.
  unfold ceil_half_sqrt_pred. intros Hw Hr.
  pose proof (Z.sqrt_sqrt_up_spec w Hw) as [_ Hs].
  pose proof (Z.sqrt_up_nonneg w) as Hs0.
  pose proof (Z.div_mod (Z.sqrt_up w) 2 ltac:(lia)) as Hdm.
  pose proof (Z.mod_pos_bound (Z.sqrt_up w) 2 ltac:(lia)) as Hm.
  nia.
Qed.

Lemma neighbors_length (latitude longitude radius : Z) :
  0 <= radius ->
  Z.of_nat (length (NumentaPreprocessor.__neighbors latitude longitude radius))
  = (2 * radius + 1) * (2 * radius + 1).
Proof.
  intros Hr. unfold NumentaPreprocessor.__neighbors, range.
  rewrite length_prod, !length_seqZ. lia.
Qed.

(** The minimum radius computed on integers is the ceiling of
    [(sqrt w - 1) / 2] over the real numbers. *)
Lemma ceil_half_sqrt_pred_real (w : Z) :
  0 <= w ->
  (IZR (ceil_half_sqrt_pred w) - 1 < (sqrt (IZR w) - 1) / 2 <= IZR (ceil_half_sqrt_pred w))%R.
Proof.
  intros Hw. unfold ceil_half_sqrt_pred.
  set (s := Z.sqrt_up w). set (r := s / 2).
  pose proof (Z.sqrt_up_nonneg w) as Hs0. fold s in Hs0.
  pose proof (Z.div_mod s 2 ltac:(lia)) as Hdm. fold r in Hdm.
  pose proof (Z.mod_pos_bound s 2 ltac:(lia)) as Hm.
  assert (Hup : w <= (2 * r + 1) * (2 * r + 1)).
  { pose proof (Z.sqrt_sqrt_up_spec w Hw) as [_ Hs]. fold s in Hs. nia. }
  assert (Hsq : (sqrt (IZR w) <= IZR (2 * r + 1))%R).
  { rewrite <- (sqrt_square (IZR (2 * r + 1))) by (apply IZR_le; lia).
    apply sqrt_le_1_alt. rewrite <- mult_IZR. now apply IZR_le. }
  rewrite plus_IZR, mult_IZR in Hsq.
  split; [| lra].
  destruct (Z.eq_dec r 0) as [-> | Hr].
  - pose proof (sqrt_pos (IZR w)). simpl. lra.
  - assert (Hwpos : 0 < w).
    { apply Z.sqrt_up_pos. fold s. lia. }
    pose proof (Z.sqrt_up_spec w Hwpos) as [Hlow _]. fold s in Hlow.
    assert (Hlt : (2 * r - 1) * (2 * r - 1) < w) by nia.
    assert (Hsq' : (IZR (2 * r - 1) < sqrt (IZR w))%R).
    { rewrite <- (sqrt_square (IZR (2 * r - 1))) by (apply IZR_le; lia).
      apply sqrt_lt_1_alt. split.
      - rewrite <- mult_IZR. apply IZR_le. nia.
      - rewrite <- mult_IZR. now apply IZR_lt. }
    rewrite minus_IZR, mult_IZR in Hsq'. lra.
Qed.

Lemma ceil_half_sqrt_pred_real_witness :
  (IZR (ceil_half_sqrt_pred 21) - 1 < (sqrt (IZR 21) - 1) / 2
   <= IZR (ceil_half_sqrt_pred 21))%R.
Proof. apply (ceil_half_sqrt_pred_real 21). lia. Defined.

Section Radius.
Import NumentaPreprocessor.

Lemma radius_run (self : t) (speed : Q) :
  scale self <> 0 -> 0 <= w self ->
  __radius self speed =
    Ok (Z.max (round (speed * inject_Z (timestep self) / inject_Z (scale self) / 2 * (3 # 2))%Q)
              (ceil_half_sqrt_pred (w self))).
Proof.
  intros Hs Hw. unfold __radius. rewrite py_div_ok by done. simpl.
  destruct (Z.ltb_spec (w self) 0); [lia | reflexivity].
Qed.

End Radius.


(** ** NeighborhoodSampler: the window and the selection *)

Lemma io_bind_run `{Random} {A B} (m : io A) (k : A -> io B) (st : World rng) :
  (m ≫= k) st =
    match m st with
    | (Ok a, st') => k a st'
    | (Raise e, st') => (Raise e, st')
    end.
Proof. reflexivity. Qed.

Lemma io_mapM_nil `{Random} {A B} (f : A -> io B) (st : World rng) :
  mapM f [] st = (Ok [], st).
Proof. reflexivity. Qed.

Lemma io_mapM_cons `{Random} {A B} (f : A -> io B) (a : A) (l : list A) (st : World rng) :
  mapM f (a :: l) st =
    match f a st with
    | (Ok y, st1) =>
        match mapM f l st1 with
        | (Ok k, st2) => (Ok (y :: k), st2)
        | (Raise e, st2) => (Raise e, st2)
        end
    | (Raise e, st1) => (Raise e, st1)
    end.
Proof. reflexivity. Qed.

Lemma list_prod_lookup {A B} (l : list A) (l' : list B) (i j : nat) (x : A) (y : B) :
  l !! i = Some x -> l' !! j = Some y ->
  list_prod l l' !! (i * length l' + j)%nat = Some (x, y).
Proof.
  revert i. induction l as [|a l IH]; intros i Hx Hy; [done |]. simpl.
  destruct i as [|i]; simpl in *.
  - injection Hx as ->. rewrite lookup_app_l.
    + change (map (λ y0 : B, (x, y0)) l') with (pair x <$> l').
      now rewrite list_lookup_fmap, Hy.
    + rewrite length_map. now apply lookup_lt_Some in Hy.
  - rewrite lookup_app_r; rewrite length_map; [| lia].
    replace (length l' + i * length l' + j - length l')%nat
      with (i * length l' + j)%nat by lia.
    now apply IH.
Qed.

Lemma neighbors_lookup (latitude longitude radius i j : Z) :
  0 <= i <= 2 * radius -> 0 <= j <= 2 * radius ->
  NumentaPreprocessor.__neighbors latitude longitude radius
    !! Z.to_nat (i * (2 * radius + 1) + j)
  = Some (latitude - radius + i, longitude - radius + j).
Proof.
  intros Hi Hj. unfold NumentaPreprocessor.__neighbors, range.
  replace (Z.to_nat (i * (2 * radius + 1) + j))
    with (Z.to_nat i * length (seqZ (longitude - radius) (longitude + radius + 1 - (longitude - radius)))
          + Z.to_nat j)%nat by (rewrite length_seqZ; nia).
  apply list_prod_lookup.
  - rewrite lookup_seqZ_lt by lia. f_equal. lia.
  - rewrite lookup_seqZ_lt by lia. f_equal. lia.
Qed.

Lemma slice_from_neg {A} (w : Z) (l : list A) :
  0 < w -> slice_from (- w) l = drop (length l - Z.to_nat w) l.
Proof.
  intros Hw. unfold slice_from.
  destruct (Z.ltb_spec (- w) 0); [| lia]. f_equal. lia.
Qed.

Lemma take_rows_ok {A} `{Inhabited A} (rows : list A) (indices : list nat) :
  (forall i, i ∈ indices -> (i < length rows)%nat) ->
  take_rows rows indices = Ok ((rows !!!.) <$> indices).
Proof.
  intros Hin. unfold take_rows. apply mapM_Ok.
  apply Forall2_fmap_r, Forall_Forall2_diag, Forall_forall.
  intros i Hi. apply Hin in Hi.
  destruct (lookup_lt_is_Some_2 rows i Hi) as [r Hr].
  rewrite Hr. f_equal. symmetry. now apply list_lookup_total_correct.
Qed.

Section Sampler.
Context `{Hashlib, Random, Numpy}.
Import NumentaPreprocessor.

Lemma coordinate_order_eval (c : Z * Z) (st : World rng) :
  exists g, __coordinate_order c.1 c.2 st =
            (Ok (order_value c), {| files := files st; gen := g |}).
Proof.
  destruct (hash_coordinate_ok c.1 c.2) as (m & _ & Hh).
  eexists. rewrite (coordinate_order_run _ _ _ st Hh).
  unfold order_value. now rewrite Hh.
Qed.

(** An order value is a 64-bit unsigned number, so the array of order
    values numpy sorts holds them exactly. *)
Lemma order_value_range (c : Z * Z) : 0 <= order_value c < 2 ^ 64.
Proof.
  unfold order_value. destruct (__hash_coordinate c.1 c.2); [| lia].
  now apply getrandbits_range.
Qed.

Lemma orders_run (neighbors : list (Z * Z)) (st : World rng) :
  exists g, mapM (fun n => __coordinate_order n.1 n.2) neighbors st =
            (Ok (order_value <$> neighbors), {| files := files st; gen := g |}).
Proof.
  revert st. induction neighbors as [|c l IH]; intros st.
  - exists (gen st). rewrite io_mapM_nil. now destruct st.
  - rewrite io_mapM_cons.
    destruct (coordinate_order_eval c st) as [g1 ->].
    destruct (IH {| files := files st; gen := g1 |}) as [g2 ->].
    now exists g2.
Qed.

Lemma argsort_elem_of (l : list Z) (i : nat) : i ∈ argsort l <-> (i < length l)%nat.
Proof. rewrite (argsort_perm l), elem_of_seq. lia. Qed.

Lemma argsort_NoDup (l : list Z) : NoDup (argsort l).
Proof. rewrite (argsort_perm l). apply NoDup_seq. Qed.

Lemma argsort_length (l : list Z) : length (argsort l) = length l.
Proof. now rewrite (argsort_perm l), length_seq. Qed.

Lemma top_indices_elem_of (self : t) (neighbors : list (Z * Z)) (i : nat) :
  i ∈ top_indices self neighbors -> (i < length neighbors)%nat.
Proof.
  intros Hi. unfold top_indices in Hi.
  apply (subseteq_drop _ _ _) in Hi.
  apply argsort_elem_of in Hi. now rewrite length_fmap in Hi.
Qed.

Lemma select_run (self : t) (neighbors : list (Z * Z)) (st : World rng) :
  0 < w self ->
  exists g, __select self neighbors st =
            (Ok ((neighbors !!!.) <$> top_indices self neighbors),
             {| files := files st; gen := g |}).
Proof.
  intros Hw. unfold __select. rewrite io_bind_run.
  destruct (orders_run neighbors st) as [g ->]. exists g.
  unfold lift. rewrite slice_from_neg by done.
  rewrite argsort_length, length_fmap.
  rewrite take_rows_ok; [reflexivity |].
  apply top_indices_elem_of.
Qed.
End Sampler.

Section SamplerClaims.
Context `{Hashlib, Random, Numpy}.
Import NumentaPreprocessor.

End SamplerClaims.



(** ** SparseVectorEncoder: the bits of one vector *)

Lemma pure_call_lift `{Random} {A} (r : res A) : pure_call (lift r) r.
Proof. intros st. exists (gen st). unfold lift. now destruct st. Qed.

Lemma pure_call_bind `{Random} {A B} (m : io A) (k : A -> io B) (r : res A) (f : A -> res B) :
  pure_call m r -> (forall a, pure_call (k a) (f a)) -> pure_call (m ≫= k) (r ≫= f).
Proof.
  intros Hm Hk st. rewrite io_bind_run. destruct (Hm st) as [g ->].
  destruct r as [a | e]; simpl.
  - destruct (Hk a {| files := files st; gen := g |}) as [g' ->]. now exists g'.
  - now exists g.
Qed.

Lemma pure_call_mapM `{Random} {A B} (f : A -> io B) (p : A -> res B) (l : list A) :
  (forall a, pure_call (f a) (p a)) -> pure_call (mapM f l) (mapM p l).
Proof.
  intros Hf. induction l as [|a l IH].
  - intros st. exists (gen st). rewrite io_mapM_nil. now destruct st.
  - simpl. apply pure_call_bind; [apply Hf |]. intros b.
    apply pure_call_bind; [apply IH |]. intros k.
    intros st. exists (gen st). now destruct st.
Qed.

Lemma mapM_Ok_fmap {A B} (f : A -> B) (l : list A) :
  mapM (fun a => Ok (f a)) l = Ok (f <$> l).
Proof. apply mapM_Ok, Forall2_fmap_r, Forall_Forall2_diag, Forall_forall. done. Qed.

Section SpatialEncoder.
Context `{Hashlib, Random, Numpy}.
Import NumentaPreprocessor.

Lemma coordinate_order_pure (c : Z * Z) :
  pure_call (__coordinate_order c.1 c.2) (Ok (order_value c)).
Proof. intros st. apply coordinate_order_eval. Qed.

Lemma coordinate_bit_pure (self : t) (c : Z * Z) :
  pure_call (__coordinate_bit self c.1 c.2) (bit_index self c).
Proof.
  intros st. destruct (hash_coordinate_ok c.1 c.2) as (m & _ & Hh).
  unfold __coordinate_bit, bit_index. rewrite !io_bind_run. unfold lift.
  rewrite Hh. simpl. unfold random_randint, py_randint.
  rewrite io_bind_run. unfold random_seed. simpl.
  destruct (n self - 1 <? 0); [now eexists |].
  destruct (randint 0 (n self - 1) (seed (m mod 2 ^ 64))). now eexists.
Qed.

Lemma select_pure (self : t) (neighbors : list (Z * Z)) :
  pure_call (__select self neighbors) (select_of self neighbors).
Proof.
  unfold __select, select_of.
  change (take_rows neighbors (slice_from (- w self) (argsort (order_value <$> neighbors))))
    with (Ok (order_value <$> neighbors) ≫=
          fun orders => take_rows neighbors (slice_from (- w self) (argsort orders))).
  apply pure_call_bind.
  - rewrite <- mapM_Ok_fmap. apply pure_call_mapM. intros c. apply coordinate_order_pure.
  - intros orders. apply pure_call_lift.
Qed.

Lemma generate_vector_pure `{Pyproj} (self : t) (data_point : Q * Q * Q) (output : list Z) :
  pure_call (__generate_vector self data_point output)
            (vector_of self data_point (length output)).
Proof.
  destruct data_point as [[speed latitude] longitude].
  unfold __generate_vector, vector_of.
  apply pure_call_bind; [apply pure_call_lift |]. intros [lat lon].
  apply pure_call_bind; [apply pure_call_lift |]. intros radius.
  apply pure_call_bind; [apply select_pure |]. intros top.
  apply pure_call_bind; [| intros indices; apply pure_call_lift].
  apply pure_call_mapM. intros c. apply coordinate_bit_pure.
Qed.
End SpatialEncoder.

Lemma count_occ_insert_le (l : list Z) (k : nat) (v : Z) :
  (count_occ Z.eq_dec (<[k := v]> l) v <= count_occ Z.eq_dec l v + 1)%nat.
Proof.
  revert k. induction l as [|x l IH]; intros k; [simpl; lia |].
  destruct k as [|k]; simpl.
  - destruct (Z.eq_dec v v); [| done]. destruct (Z.eq_dec x v); lia.
  - specialize (IH k). destruct (Z.eq_dec x v); lia.
Qed.

Lemma set_index_inv (output : list Z) (i v : Z) (output' : list Z) :
  set_index output i v = Ok output' ->
  exists k, (k < length output)%nat /\ output' = <[k := v]> output.
Proof.
  unfold set_index. intros Hset.
  destruct ((0 <=? i) && (i <? Z.of_nat (length output))) eqn:E1.
  - injection Hset as <-. exists (Z.to_nat i). split; [lia | reflexivity].
  - destruct ((- Z.of_nat (length output) <=? i) && (i <? 0)) eqn:E2; [| discriminate].
    injection Hset as <-. eexists. split; [| reflexivity]. lia.
Qed.

Lemma set_index_in_range (output : list Z) (i v : Z) :
  0 <= i < Z.of_nat (length output) ->
  set_index output i v = Ok (<[Z.to_nat i := v]> output).
Proof.
  intros Hi. unfold set_index.
  destruct (Z.leb_spec 0 i); [| lia].
  destruct (Z.ltb_spec i (Z.of_nat (length output))); [reflexivity | lia].
Qed.

Lemma set_indices_inv (indices : list Z) (output v : list Z) :
  set_indices output indices 1 = Ok v ->
  length v = length output /\
  (Forall bit output -> Forall bit v) /\
  (count_occ Z.eq_dec v 1%Z <= count_occ Z.eq_dec output 1%Z + length indices)%nat /\
  (forall j, output !! j = Some 1 -> v !! j = Some 1).
Proof.
  revert output. induction indices as [|i indices IH]; intros output; simpl.
  - intros [= <-]. repeat split; auto; lia.
  - destruct (set_index output i 1) as [output' |] eqn:Hset; simpl; [| discriminate].
    intros Hv. apply IH in Hv as (Hlen & Hbit & Hcount & Hkeep).
    apply set_index_inv in Hset as (k & Hk & ->).
    rewrite length_insert in Hlen.
    split; [done |]. split; [| split].
    + intros Hout. apply Hbit. apply Forall_insert; [done | now right].
    + pose proof (count_occ_insert_le output k 1). lia.
    + intros j Hj. apply Hkeep.
      destruct (decide (k = j)) as [-> | Hne].
      * now rewrite list_lookup_insert_eq.
      * now rewrite list_lookup_insert_ne.
Qed.

Lemma set_indices_in_range (indices : list Z) (output : list Z) :
  Forall (fun i => 0 <= i < Z.of_nat (length output)) indices ->
  is_ok (set_indices output indices 1) = true.
Proof.
  revert output. induction indices as [|i indices IH]; intros output Hin; [done |].
  apply Forall_cons in Hin as [Hi Hin]. simpl.
  rewrite set_index_in_range by done. simpl.
  apply IH. now rewrite length_insert.
Qed.

(** Setting a bit that is set changes nothing. *)
Lemma set_index_idempotent (output : list Z) (i : Z) :
  0 <= i < Z.of_nat (length output) -> output !! Z.to_nat i = Some 1 ->
  set_index output i 1 = Ok output.
Proof.
  intros Hi Hset. rewrite set_index_in_range by done. f_equal.
  now apply list_insert_id.
Qed.

Section SpatialEncoderClaims.
Context `{Hashlib, Random, Numpy, Pyproj}.
Import NumentaPreprocessor.

Lemma select_of_top (self : t) (neighbors : list (Z * Z)) :
  0 < w self ->
  select_of self neighbors = Ok ((neighbors !!!.) <$> top_indices self neighbors).
Proof.
  intros Hw. unfold select_of. rewrite slice_from_neg by done.
  rewrite argsort_length, length_fmap.
  apply take_rows_ok, top_indices_elem_of.
Qed.

Lemma bit_index_ok (self : t) (c : Z * Z) :
  0 < n self -> exists i, bit_index self c = Ok i /\ 0 <= i < n self.
Proof.
  intros Hn. destruct (hash_coordinate_ok c.1 c.2) as (m & _ & Hh).
  unfold bit_index. rewrite Hh. simpl.
  destruct (Z.ltb_spec (n self - 1) 0); [lia |].
  eexists. split; [reflexivity |].
  pose proof (randint_range 0 (n self - 1) (seed (m mod 2 ^ 64))). lia.
Qed.

Lemma bit_indices_ok (self : t) (top : list (Z * Z)) :
  0 < n self ->
  exists indices, mapM (bit_index self) top = Ok indices /\
                  length indices = length top /\
                  Forall (fun i => 0 <= i < n self) indices.
Proof.
  intros Hn. induction top as [|c top (indices & Hind & Hlen & Hrange)]; simpl.
  - exists []. now repeat split.
  - destruct (bit_index_ok self c Hn) as (i & -> & Hi). simpl. rewrite Hind. simpl.
    exists (i :: indices). repeat split; [simpl; lia | now constructor].
Qed.

(** With a scale that is not zero, [1 <= w] and [1 <= n], every record
    gets a vector of [n] positions, each 0 or 1, at most [w] of them 1. *)
Lemma encode_point_bits (self : t) (data_point : Q * Q * Q) :
  scale self <> 0 -> 0 < w self -> 0 < n self ->
  exists v, encode_point self data_point = Ok v /\
            length v = Z.to_nat (n self) /\
            Forall bit v /\
            (Z.of_nat (count_occ Z.eq_dec v 1) <= w self).
Proof.
  intros Hs Hw Hn. destruct data_point as [[speed latitude] longitude].
  unfold encode_point, torch_zeros.
  destruct (Z.ltb_spec (n self) 0); [lia |]. simpl. rewrite length_replicate.
  unfold __map_transform. destruct (proj longitude latitude) as [x y].
  rewrite !py_div_ok by done. simpl.
  rewrite radius_run by lia. simpl.
  rewrite select_of_top by done. simpl.
  set (top := (_ !!!.) <$> _).
  destruct (bit_indices_ok self top Hn) as (indices & -> & Hlen & Hrange). simpl.
  assert (Hok : is_ok (set_indices (replicate (Z.to_nat (n self)) 0) indices 1) = true).
  { apply set_indices_in_range. rewrite length_replicate.
    eapply Forall_impl; [exact Hrange |]. simpl. lia. }
  destruct (set_indices _ indices 1) as [v |] eqn:Hv; [| discriminate].
  exists v. split; [reflexivity |].
  apply set_indices_inv in Hv as (Hl & Hbit & Hcount & _).
  rewrite length_replicate in Hl. split; [done |]. split.
  - apply Hbit, Forall_replicate. now left.
  - assert (Hzero : count_occ Z.eq_dec (replicate (Z.to_nat (n self)) 0) 1 = 0%nat).
    { apply count_occ_not_In. intros Hin. apply list_elem_of_In in Hin.
      now apply elem_of_replicate in Hin as [? _]. }
    rewrite Hzero, Hlen in Hcount. unfold top in Hcount.
    rewrite length_fmap in Hcount. unfold top_indices in Hcount.
    rewrite length_drop, argsort_length, length_fmap in Hcount. lia.
Qed.

End SpatialEncoderClaims.


Lemma set_indices_sets (indices : list Z) (output v : list Z) (i : Z) :
  set_indices output indices 1 = Ok v ->
  i ∈ indices -> 0 <= i < Z.of_nat (length output) ->
  v !! Z.to_nat i = Some 1.
Proof.
  revert output. induction indices as [|i' indices IH]; intros output Hv Hin Hi.
  - now apply elem_of_nil in Hin.
  - simpl in Hv.
    destruct (set_index output i' 1) as [output' |] eqn:Hset; simpl in Hv; [| discriminate].
    pose proof Hset as Hinv. apply set_index_inv in Hinv as (k & Hk & ->).
    apply elem_of_cons in Hin as [-> | Hin].
    + rewrite set_index_in_range in Hset by done. injection Hset as Hset.
      apply set_indices_inv in Hv as (_ & _ & _ & Hkeep). apply Hkeep.
      rewrite <- Hset. apply list_lookup_insert_eq. lia.
    + apply (IH _ Hv Hin). now rewrite length_insert.
Qed.

Lemma count_occ_lookup (v : list Z) (k : nat) :
  v !! k = Some 1 -> (1 <= count_occ Z.eq_dec v 1%Z)%nat.
Proof.
  intros Hk. apply list_elem_of_lookup_2, list_elem_of_In in Hk.
  apply (count_occ_In Z.eq_dec) in Hk. lia.
Qed.

Section WZero.
Context `{Hashlib, Random, Numpy, Pyproj}.
Import NumentaPreprocessor.

Lemma select_of_w_zero (self : t) (neighbors : list (Z * Z)) :
  w self = 0 ->
  select_of self neighbors
  = Ok ((neighbors !!!.) <$> argsort (order_value <$> neighbors)).
Proof.
  intros Hw. unfold select_of. rewrite Hw.
  change (slice_from (- 0) ?l) with (drop 0 l). rewrite drop_0.
  apply take_rows_ok. intros i Hi.
  apply argsort_elem_of in Hi. now rewrite length_fmap in Hi.
Qed.

Lemma vector_of_w_zero (self : t) (data_point : Q * Q * Q) :
  w self = 0 -> scale self <> 0 -> 0 < n self ->
  exists v, vector_of self data_point (Z.to_nat (n self)) = Ok v /\
            length v = Z.to_nat (n self) /\
            (1 <= count_occ Z.eq_dec v 1%Z)%nat.
Proof.
  intros Hw Hs Hn. destruct data_point as [[speed latitude] longitude].
  unfold vector_of, __map_transform.
  destruct (proj longitude latitude) as [x y].
  rewrite !py_div_ok by done. simpl.
  rewrite radius_run by lia. simpl.
  set (radius := Z.max _ _).
  assert (Hradius : 0 <= radius).
  { unfold radius. pose proof (ceil_half_sqrt_pred_nonneg (w self)). lia. }
  rewrite select_of_w_zero by done. simpl.
  set (neighbors := __neighbors _ _ radius).
  set (top := (neighbors !!!.) <$> _).
  assert (Htop : (1 <= length top)%nat).
  { unfold top. rewrite length_fmap, argsort_length, length_fmap.
    pose proof (neighbors_length (int_of_float (y / inject_Z (scale self)))
                  (int_of_float (x / inject_Z (scale self))) radius Hradius) as Hlen.
    fold neighbors in Hlen. nia. }
  destruct (bit_indices_ok self top Hn) as (indices & -> & Hlen & Hrange). simpl.
  assert (Hok : is_ok (set_indices (replicate (Z.to_nat (n self)) 0) indices 1) = true).
  { apply set_indices_in_range. rewrite length_replicate.
    eapply Forall_impl; [exact Hrange |]. simpl. lia. }
  destruct (set_indices _ indices 1) as [v |] eqn:Hv; [| discriminate].
  exists v. split; [reflexivity |].
  pose proof Hv as Hinv. apply set_indices_inv in Hinv as (Hl & _).
  rewrite length_replicate in Hl. split; [done |].
  destruct indices as [|i indices]; [simpl in Hlen; lia |].
  apply Forall_cons in Hrange as [Hi _].
  apply (count_occ_lookup v (Z.to_nat i)).
  apply (set_indices_sets _ _ _ i Hv); [apply list_elem_of_here |].
  rewrite length_replicate. lia.
Qed.

(** C8 at [w = 0].  An encoder built with [w = 0] (scale not zero,
    [1 <= n]) selects every cell of every window, since [indices[-0:]]
    is the whole array; the vector of a record has [n] positions and at
    least one set bit, more than [w]. *)
Theorem spatial_vector_with_w_zero (self : t) (data_point : Q * Q * Q) (st : World rng) :
  w self = 0 -> scale self <> 0 -> 0 < n self ->
  (forall neighbors st', exists top g,
     __select self neighbors st' = (Ok top, {| files := files st'; gen := g |}) /\
     length top = length neighbors) /\
  exists v g,
    __generate_vector self data_point (replicate (Z.to_nat (n self)) 0) st
    = (Ok v, {| files := files st; gen := g |}) /\
    length v = Z.to_nat (n self) /\
    w self < Z.of_nat (count_occ Z.eq_dec v 1).
Proof.
  intros Hw Hs Hn. split.
  - intros neighbors st'. destruct (select_pure self neighbors st') as [g Hrun].
    rewrite (select_of_w_zero self neighbors Hw) in Hrun.
    eexists _, g. split; [exact Hrun |].
    now rewrite length_fmap, argsort_length, length_fmap.
  - destruct (generate_vector_pure self data_point (replicate (Z.to_nat (n self)) 0) st)
      as [g Hrun].
    rewrite length_replicate in Hrun.
    destruct (vector_of_w_zero self data_point Hw Hs Hn) as (v & Hv & Hl & Hcount).
    rewrite Hv in Hrun. exists v, g. split; [exact Hrun |]. split; [exact Hl | lia].
Qed.
End WZero.

Lemma spatial_vector_with_w_zero_witness :
  let self := {| NumentaPreprocessor.w := 0; NumentaPreprocessor.n := 1000;
                 NumentaPreprocessor.scale := 5; NumentaPreprocessor.timestep := 10 |} in
  let st := sample_world Sample.csv None in
  (forall neighbors st', exists top g,
     NumentaPreprocessor.__select self neighbors st'
     = (Ok top, {| files := files st'; gen := g |}) /\
     length top = length neighbors) /\
  exists v g,
    NumentaPreprocessor.__generate_vector self (5, 40, -73)%Q
      (replicate (Z.to_nat 1000) 0) st
    = (Ok v, {| files := files st; gen := g |}) /\
    length v = Z.to_nat 1000 /\
    0 < Z.of_nat (count_occ Z.eq_dec v 1).
Proof.
  apply (spatial_vector_with_w_zero (H := Sample_hashlib) (H0 := Sample_random)
           (H1 := Sample_numpy) (H2 := Sample_pyproj)
           {| NumentaPreprocessor.w := 0; NumentaPreprocessor.n := 1000;
              NumentaPreprocessor.scale := 5; NumentaPreprocessor.timestep := 10 |}
           (5, 40, -73)%Q (sample_world Sample.csv None)).
  - reflexivity.
  - simpl. lia.
  - reflexivity.
Defined.

(** With the sample libraries: for the record with speed 5 the window has
    radius 8, and with [w = 0] the vector of 1000 positions comes out
    with 207 bits set. *)
Lemma spatial_vector_with_w_zero_evaluated :
  let self := {| NumentaPreprocessor.w := 0; NumentaPreprocessor.n := 1000;
                 NumentaPreprocessor.scale := 5; NumentaPreprocessor.timestep := 10 |} in
  NumentaPreprocessor.__radius self 5%Q = Ok 8 /\
  (fun v => (length v, count_occ Z.eq_dec v 1)) <$>
    (NumentaPreprocessor.__generate_vector self (5, 40, -73)%Q (replicate 1000 0)
       (sample_world Sample.csv None)).1
  = Ok (1000%nat, 207%nat).
Proof. vm_compute. split; reflexivity. Qed.

(** ** DigitOneHotEncoder: the blocks of one vector *)

Lemma int_of_char_digit (c : ascii) :
  is_digit c = true -> int_of_char c = Ok (digit_value c) /\ 0 <= digit_value c < 10.
Proof.
  unfold is_digit, int_of_char, digit_value. intros Hc. rewrite Hc.
  split; [reflexivity | lia].
Qed.

Lemma int_of_char_other (c : ascii) :
  is_digit c = false -> int_of_char c = Raise ValueError.
Proof. unfold is_digit, int_of_char. now intros ->. Qed.

Lemma digit_rows_length (s : string) : length (digit_rows s) = String.length s.
Proof. induction s as [|c s IH]; simpl; [reflexivity | now rewrite IH]. Qed.

Lemma encode_from_cons (j : nat) (c : ascii) (rest : string) (mat : list (list Z)) :
  AltGeoPreprocessor.encode_from j (String c rest) mat =
    match mat !! j with
    | None => Raise IndexError
    | Some row =>
        d ← int_of_char c; row' ← set_index row d 1;
        AltGeoPreprocessor.encode_from (S j) rest (<[j := row']> mat)
    end.
Proof. reflexivity. Qed.

Lemma np_zeros_S (k cols : nat) : np_zeros (S k) cols = replicate cols 0 :: np_zeros k cols.
Proof. reflexivity. Qed.

(** One step of the loop on a digit, in a matrix whose row [length pre]
    is still zero. *)
Lemma encode_from_digit (c : ascii) (rest : string) (pre : list (list Z)) (k : nat) :
  is_digit c = true ->
  AltGeoPreprocessor.encode_from (length pre) (String c rest) (pre ++ np_zeros (S k) 10)%list
  = AltGeoPreprocessor.encode_from (length (pre ++ [one_hot (digit_value c)])%list) rest
      ((pre ++ [one_hot (digit_value c)]) ++ np_zeros k 10)%list.
Proof.
  intros Hc. rewrite encode_from_cons, np_zeros_S.
  rewrite lookup_app_r, Nat.sub_diag by lia.
  change ((replicate 10 0 :: np_zeros k 10) !! 0%nat) with (Some (replicate 10 0)).
  destruct (int_of_char_digit c Hc) as [-> Hd].
  change (Ok (digit_value c) ≫= ?f) with (f (digit_value c)). cbn beta.
  rewrite set_index_in_range by (rewrite length_replicate; lia).
  change (Ok ?x ≫= ?f) with (f x). cbn beta.
  rewrite insert_app_r_alt, Nat.sub_diag by lia.
  change (<[0%nat := ?r]> (replicate 10 0 :: np_zeros k 10)) with (r :: np_zeros k 10).
  rewrite length_app, Nat.add_1_r. fold (one_hot (digit_value c)).
  now rewrite <- app_assoc.
Qed.

Lemma encode_from_fits (s : string) (pre : list (list Z)) (k : nat) :
  fits k s = true ->
  AltGeoPreprocessor.encode_from (length pre) s (pre ++ np_zeros k 10)%list
  = Ok (pre ++ blocks k s)%list.
Proof.
  revert pre k. induction s as [|c s IH]; intros pre k Hfit.
  - simpl. unfold blocks. simpl. now rewrite Nat.sub_0_r.
  - unfold fits in Hfit. simpl in Hfit.
    apply andb_true_iff in Hfit as [Hlen Hdig].
    apply andb_true_iff in Hdig as [Hc Hs].
    destruct k as [|k]; [discriminate |].
    rewrite (encode_from_digit c s pre k Hc), IH.
    + unfold blocks. simpl. now rewrite <- app_assoc.
    + unfold fits. now rewrite Hs, andb_true_r.
Qed.

Lemma encode_from_overflow (s : string) (pre : list (list Z)) (k : nat) :
  fits k s = false ->
  exists e, AltGeoPreprocessor.encode_from (length pre) s (pre ++ np_zeros k 10)%list = Raise e.
Proof.
  revert pre k. induction s as [|c s IH]; intros pre k Hfit; [discriminate |].
  destruct k as [|k].
  - rewrite encode_from_cons.
    rewrite lookup_ge_None_2 by (rewrite length_app; simpl; lia). now eexists.
  - destruct (is_digit c) eqn:Hc.
    + rewrite (encode_from_digit c s pre k Hc). apply IH.
      unfold fits in *. simpl in Hfit. now rewrite Hc in Hfit.
    + rewrite encode_from_cons, np_zeros_S.
      rewrite lookup_app_r, Nat.sub_diag by lia.
      change ((replicate 10 0 :: np_zeros k 10) !! 0%nat) with (Some (replicate 10 0)).
      rewrite (int_of_char_other c Hc). now eexists.
Qed.

Lemma encode_zeros_fits (s : string) (k : nat) :
  fits k s = true -> AltGeoPreprocessor.__encode s (np_zeros k 10) = Ok (blocks k s).
Proof. intros Hfit. exact (encode_from_fits s [] k Hfit). Qed.

Lemma encode_zeros_overflow (s : string) (k : nat) :
  fits k s = false -> exists e, AltGeoPreprocessor.__encode s (np_zeros k 10) = Raise e.
Proof. intros Hfit. exact (encode_from_overflow s [] k Hfit). Qed.

(** *** Blocks of a vector *)

Lemma concat_block (rows : list (list Z)) (b : nat) (row : list Z) :
  Forall (fun r => length r = 10%nat) rows ->
  rows !! b = Some row -> block (concat rows) b = row.
Proof.
  unfold block. revert b. induction rows as [|r rows IH]; intros b Hlen Hb; [done |].
  apply Forall_cons in Hlen as [Hr Hlen]. cbn [concat].
  destruct b as [|b]; simpl in Hb.
  - injection Hb as ->. now rewrite Nat.mul_0_r, drop_0, take_app_length'.
  - replace (10 * S b)%nat with (10 + 10 * b)%nat by lia.
    rewrite drop_app_add' by done. now apply IH.
Qed.

Lemma concat_length_uniform (rows : list (list Z)) :
  Forall (fun r => length r = 10%nat) rows -> length (concat rows) = (length rows * 10)%nat.
Proof.
  induction 1 as [|r rows Hr _ IH]; [reflexivity |].
  simpl. rewrite length_app, IH, Hr. lia.
Qed.

Lemma one_hot_length (d : Z) : length (one_hot d) = 10%nat.
Proof. unfold one_hot. now rewrite length_insert, length_replicate. Qed.

Lemma one_hot_ones (d : Z) : 0 <= d < 10 -> ones (one_hot d) = 1%nat.
Proof.
  intros Hd. enumerate d 10.
Qed.

Lemma digit_rows_lookup (s : string) (b : nat) (row : list Z) :
  all_digits s = true -> digit_rows s !! b = Some row ->
  length row = 10%nat /\ ones row = 1%nat.
Proof.
  revert b. induction s as [|c s IH]; intros b Hs Hb; [done |].
  simpl in Hs. apply andb_true_iff in Hs as [Hc Hs].
  destruct b as [|b]; simpl in Hb.
  - injection Hb as <-. split; [apply one_hot_length |].
    apply one_hot_ones. now destruct (int_of_char_digit c Hc).
  - now apply (IH b).
Qed.

Lemma blocks_lookup (k : nat) (s : string) (b : nat) (row : list Z) :
  fits k s = true -> blocks k s !! b = Some row ->
  length row = 10%nat /\
  ones row = if (b <? String.length s)%nat then 1%nat else 0%nat.
Proof.
  unfold fits, blocks. intros Hfit Hb.
  apply andb_true_iff in Hfit as [Hlen Hs]. apply Nat.leb_le in Hlen.
  destruct (Nat.ltb_spec b (String.length s)) as [Hlt | Hge].
  - rewrite lookup_app_l in Hb by now rewrite digit_rows_length.
    now apply (digit_rows_lookup s b).
  - rewrite lookup_app_r in Hb by now rewrite digit_rows_length.
    apply lookup_replicate in Hb as [-> _]. now rewrite length_replicate.
Qed.

Lemma blocks_length (k : nat) (s : string) : fits k s = true -> length (blocks k s) = k.
Proof.
  unfold fits, blocks. intros Hfit.
  apply andb_true_iff in Hfit as [Hlen _]. apply Nat.leb_le in Hlen.
  unfold np_zeros. rewrite length_app, digit_rows_length, length_replicate. lia.
Qed.

Lemma blocks_uniform (k : nat) (s : string) :
  fits k s = true -> Forall (fun r => length r = 10%nat) (blocks k s).
Proof.
  intros Hfit. apply Forall_lookup. intros b row Hb.
  now apply (blocks_lookup k s b row Hfit).
Qed.

Section DigitEncoder.
Import AltGeoPreprocessor.

Lemma encode_record_fits (self : t) (record : Q * Q * Q) :
  record_fits self record = true ->
  encode_record self record = Ok (concat (record_rows self record)).
Proof.
  destruct record as [[speed latitude] longitude]. unfold record_fits, record_rows.
  intros Hfit. apply andb_true_iff in Hfit as [Hfit Hspd].
  apply andb_true_iff in Hfit as [Hlat Hlon].
  unfold encode_record.
  rewrite (encode_zeros_fits _ _ Hlat), (encode_zeros_fits _ _ Hlon),
    (encode_zeros_fits _ _ Hspd).
  simpl. now rewrite !concat_app.
Qed.

Lemma encode_record_overflow (self : t) (record : Q * Q * Q) :
  record_fits self record = false -> exists e, encode_record self record = Raise e.
Proof.
  destruct record as [[speed latitude] longitude]. unfold record_fits, encode_record.
  intros Hfit.
  destruct (fits (gdigits self) (latitude_str self latitude)) eqn:Hlat.
  - rewrite (encode_zeros_fits _ _ Hlat).
    destruct (fits (gdigits self) (longitude_str self longitude)) eqn:Hlon.
    + rewrite (encode_zeros_fits _ _ Hlon).
      destruct (encode_zeros_overflow _ _ Hfit) as [e ->]. now exists e.
    + destruct (encode_zeros_overflow _ _ Hlon) as [e ->]. now exists e.
  - destruct (encode_zeros_overflow _ _ Hlat) as [e ->]. now exists e.
Qed.

Lemma encode_record_ok_fits (self : t) (record : Q * Q * Q) (v : list Z) :
  encode_record self record = Ok v -> record_fits self record = true.
Proof.
  intros Hv. destruct (record_fits self record) eqn:Hfit; [reflexivity |].
  destruct (encode_record_overflow self record Hfit) as [e He]. congruence.
Qed.

(** C4, as amended.  The vector of a record that is encoded has length
    [2 * gdigits * 10 + sdigits * 10] and is made of 10-wide blocks, those
    of the latitude first, then of the longitude, then of the speed.
    [__encode] writes the digits from the first block of a field on and
    pads nothing: a block has exactly one set bit when its position in
    the field is below the length of the field's digit string, and no
    set bit otherwise.  So every block has exactly one set bit only when
    the three digit strings have the full widths. *)
Theorem digit_vector_blocks (self : t) (speed latitude longitude : Q) (v : list Z) :
  encode_record self (speed, latitude, longitude) = Ok v ->
  let g := gdigits self in
  let s := sdigits self in
  v = concat (record_rows self (speed, latitude, longitude)) /\
  length v = (2 * g * 10 + s * 10)%nat /\
  (forall b, (b < 2 * g + s)%nat -> length (block v b) = 10%nat) /\
  (forall b, (b < g)%nat ->
     ones (block v b)
     = if (b <? String.length (latitude_str self latitude))%nat then 1%nat else 0%nat) /\
  (forall b, (b < g)%nat ->
     ones (block v (g + b))
     = if (b <? String.length (longitude_str self longitude))%nat then 1%nat else 0%nat) /\
  (forall b, (b < s)%nat ->
     ones (block v (2 * g + b))
     = if (b <? String.length (speed_str self speed))%nat then 1%nat else 0%nat).
Proof.
  intros Hv g s. subst g s. pose proof (encode_record_ok_fits _ _ _ Hv) as Hfit.
  rewrite (encode_record_fits _ _ Hfit) in Hv.
  assert (Hv' : v = concat (record_rows self (speed, latitude, longitude))) by congruence.
  clear Hv. subst v.
  unfold record_fits in Hfit. apply andb_true_iff in Hfit as [Hfit Hspd].
  apply andb_true_iff in Hfit as [Hlat Hlon].
  set (rows := record_rows self (speed, latitude, longitude)).
  assert (Huni : Forall (fun r => length r = 10%nat) rows).
  { unfold rows, record_rows. rewrite !Forall_app. auto using blocks_uniform. }
  assert (Hrows : length rows = (2 * (gdigits self) + (sdigits self))%nat).
  { unfold rows, record_rows. rewrite !length_app, !blocks_length by done. lia. }
  assert (Hblock : forall b row, rows !! b = Some row -> block (concat rows) b = row).
  { intros b row. now apply concat_block. }
  split; [reflexivity |]. split; [rewrite concat_length_uniform, Hrows by done; lia |].
  split; [| split; [| split]].
  - intros b Hb. destruct (lookup_lt_is_Some_2 rows b) as [row Hrow]; [lia |].
    rewrite (Hblock b row Hrow). eapply Forall_lookup_1 in Huni; eauto.
  - intros b Hb.
    destruct (lookup_lt_is_Some_2 (blocks (gdigits self) (latitude_str self latitude)) b) as [row Hrow];
      [now rewrite blocks_length |].
    rewrite (Hblock b row).
    + now apply (blocks_lookup (gdigits self) _ b row Hlat).
    + unfold rows, record_rows. now rewrite lookup_app_l by now rewrite blocks_length.
  - intros b Hb.
    destruct (lookup_lt_is_Some_2 (blocks (gdigits self) (longitude_str self longitude)) b) as [row Hrow];
      [now rewrite blocks_length |].
    rewrite (Hblock ((gdigits self) + b)%nat row).
    + now apply (blocks_lookup (gdigits self) _ b row Hlon).
    + unfold rows, record_rows.
      rewrite lookup_app_r by (rewrite blocks_length by done; lia).
      rewrite blocks_length by done. replace ((gdigits self) + b - (gdigits self))%nat with b by lia.
      now rewrite lookup_app_l by now rewrite blocks_length.
  - intros b Hb.
    destruct (lookup_lt_is_Some_2 (blocks (sdigits self) (speed_str self speed)) b) as [row Hrow];
      [now rewrite blocks_length |].
    rewrite (Hblock (2 * (gdigits self) + b)%nat row).
    + now apply (blocks_lookup (sdigits self) _ b row Hspd).
    + unfold rows, record_rows.
      rewrite lookup_app_r by (rewrite blocks_length by done; lia).
      rewrite blocks_length by done.
      rewrite lookup_app_r by (rewrite blocks_length by done; lia).
      rewrite blocks_length by done. now replace (2 * (gdigits self) + b - (gdigits self) - (gdigits self))%nat with b by lia.
Qed.
End DigitEncoder.

Lemma digit_vector_blocks_witness :
  let self := AltGeoPreprocessor.default in
  let v := concat (record_rows self (5, 40, -73)%Q) in
  let g := AltGeoPreprocessor.gdigits self in
  let s := AltGeoPreprocessor.sdigits self in
  v = concat (record_rows self (5, 40, -73)%Q) /\
  length v = (2 * g * 10 + s * 10)%nat /\
  (forall b, (b < 2 * g + s)%nat -> length (block v b) = 10%nat) /\
  (forall b, (b < g)%nat ->
     ones (block v b)
     = if (b <? String.length (AltGeoPreprocessor.latitude_str self 40))%nat
       then 1%nat else 0%nat) /\
  (forall b, (b < g)%nat ->
     ones (block v (g + b))
     = if (b <? String.length (AltGeoPreprocessor.longitude_str self (-73)))%nat
       then 1%nat else 0%nat) /\
  (forall b, (b < s)%nat ->
     ones (block v (2 * g + b))
     = if (b <? String.length (AltGeoPreprocessor.speed_str self 5))%nat
       then 1%nat else 0%nat).
Proof.
  apply (digit_vector_blocks AltGeoPreprocessor.default 5 40 (-73)).
  vm_compute. reflexivity.
Defined.

(** C4 as stated fails.  With the defaults the widths are 9 and 4; the
    record with speed 5 has the speed string "50", so of the four speed
    blocks (18 to 21) the last two have no set bit; the record with
    latitude -89 has the latitude string "1000000", so the latitude
    blocks 7 and 8 have none. *)
Lemma short_digit_string_leaves_empty_blocks :
  let self := AltGeoPreprocessor.default in
  (AltGeoPreprocessor.gdigits self, AltGeoPreprocessor.sdigits self) = (9%nat, 4%nat) /\
  AltGeoPreprocessor.speed_str self 5 = "50" /\
  (fun v => (length v, ones (block v 18), ones (block v 19),
             ones (block v 20), ones (block v 21)))
    <$> AltGeoPreprocessor.encode_record self (5, 40, -73)%Q
  = Ok (220%nat, 1%nat, 1%nat, 0%nat, 0%nat) /\
  AltGeoPreprocessor.latitude_str self (-89) = "1000000" /\
  (fun v => (length v, ones (block v 6), ones (block v 7), ones (block v 8)))
    <$> AltGeoPreprocessor.encode_record self (0, -89, 10)%Q
  = Ok (220%nat, 1%nat, 0%nat, 0%nat).
Proof. vm_compute. repeat split. Qed.

(** ** The batch loop *)

Lemma zip3_lookup {A B C} (a : list A) (b : list B) (c : list C) (i : nat) (x : A) (y : B) (z : C) :
  zip3 a b c !! i = Some (x, y, z) <->
  a !! i = Some x /\ b !! i = Some y /\ c !! i = Some z.
Proof.
  unfold zip3. rewrite lookup_zip_with, lookup_zip_with.
  destruct (a !! i), (b !! i), (c !! i); simpl; intuition congruence.
Qed.

Lemma zip3_length {A B C} (a : list A) (b : list B) (c : list C) (k : nat) :
  length a = k -> length b = k -> length c = k -> length (zip3 a b c) = k.
Proof. unfold zip3. rewrite !length_zip_with. lia. Qed.

Lemma mapM_Raise {A B} (f : A -> res B) (l : list A) (a : A) (e : exn) :
  a ∈ l -> f a = Raise e -> exists e', mapM f l = Raise e'.
Proof.
  intros Hin Ha. induction l as [|x l IH]; [now apply elem_of_nil in Hin |].
  simpl. destruct (f x) as [y |] eqn:Hx; simpl; [| now eexists].
  apply elem_of_cons in Hin as [-> | Hin]; [congruence |].
  destruct (IH Hin) as [e' ->]. now eexists.
Qed.

Lemma mapM_total {A B} (f : A -> res B) (l : list A) :
  Forall (fun a => exists b, f a = Ok b) l -> exists k, mapM f l = Ok k.
Proof.
  induction 1 as [|a l [b Hb] _ [k Hk]]; [now exists [] |].
  exists (b :: k). simpl. now rewrite Hb, Hk.
Qed.

(** Runs the statement [c ← lift (column data name)] at the head of the
    goal, given the column the frame holds under the name. *)
Ltac read_column H :=
  rewrite io_bind_run; unfold lift at 1, column at 1; rewrite H.

Section BatchLoop.
Context `{Hashlib, Random, Numpy, Pandas, Pyproj}.

Lemma read_frame (filename : string) (ls : list string) (df : gmap string (list Q))
    (st : World rng) :
  files st !! filename = Some (Text ls) -> read_csv ls = Ok df ->
  pd_read_csv filename st = (Ok df, st).
Proof.
  intros Hf Hdf. unfold pd_read_csv. rewrite io_bind_run. unfold readlines.
  rewrite Hf. unfold lift. now rewrite Hdf.
Qed.

Lemma numenta_process_run (self : NumentaPreprocessor.t) (filename : string) (cache : Cache)
    (ls : list string) (df : gmap string (list Q)) (speeds latitudes longitudes : list Q)
    (st : World rng) :
  files st !! filename = Some (Text ls) -> read_csv ls = Ok df ->
  df !! "speed" = Some speeds -> df !! "latitude" = Some latitudes ->
  df !! "longitude" = Some longitudes ->
  exists g, NumentaPreprocessor._process self filename cache st =
            (batch ← mapM (encode_point self) (zip3 speeds latitudes longitudes);
             mret {| verify := verify cache; data := Some batch |},
             {| files := files st; gen := g |}).
Proof.
  intros Hf Hdf Hs Hla Hlo. unfold NumentaPreprocessor._process.
  rewrite io_bind_run, (read_frame _ _ _ _ Hf Hdf).
  read_column Hs. read_column Hla. read_column Hlo.
  assert (Hloop : pure_call
            (mapM (fun '(speed, latitude, longitude) =>
                     output ← lift (torch_zeros (NumentaPreprocessor.n self));
                     NumentaPreprocessor.__generate_vector self (speed, latitude, longitude) output)
                  (zip3 speeds latitudes longitudes))
            (mapM (encode_point self) (zip3 speeds latitudes longitudes))).
  { apply pure_call_mapM. intros [[speed latitude] longitude].
    apply pure_call_bind; [apply pure_call_lift |].
    intros output. apply generate_vector_pure. }
  rewrite io_bind_run. destruct (Hloop st) as [g ->]. exists g.
  now destruct (mapM (encode_point self) _).
Qed.

Lemma altgeo_process_run (self : AltGeoPreprocessor.t) (filename : string) (cache : Cache)
    (ls : list string) (df : gmap string (list Q)) (speeds latitudes longitudes : list Q)
    (st : World rng) :
  files st !! filename = Some (Text ls) -> read_csv ls = Ok df ->
  df !! "speed" = Some speeds -> df !! "latitude" = Some latitudes ->
  df !! "longitude" = Some longitudes ->
  AltGeoPreprocessor._process self filename cache st =
    (batch ← mapM (AltGeoPreprocessor.encode_record self) (zip3 speeds latitudes longitudes);
     mret {| verify := verify cache; data := Some batch |}, st).
Proof.
  intros Hf Hdf Hs Hla Hlo. unfold AltGeoPreprocessor._process.
  rewrite io_bind_run, (read_frame _ _ _ _ Hf Hdf).
  read_column Hs. read_column Hla. read_column Hlo.
  rewrite io_bind_run. unfold lift.
  now destruct (mapM (AltGeoPreprocessor.encode_record self) _).
Qed.
End BatchLoop.

(** Splits the statement at the head of a run that returned. *)
Ltac run_head Hrun :=
  rewrite io_bind_run in Hrun;
  match type of Hrun with
  | context [match ?m ?st with _ => _ end] =>
      let a := fresh "a" in let e := fresh "e" in let st1 := fresh "st" in
      destruct (m st) as [[a | e] st1]; [| discriminate]
  end.

(** Both hooks leave the hash of the dictionary as it was and store a
    batch: on a miss, what [process] pickles under the cache path is the
    hash of the input file with the batch just computed. *)
Section KeepsVerify.
Context `{Hashlib, Random, Numpy, Pandas, Pyproj}.

Lemma numenta_process_keeps_verify (self : NumentaPreprocessor.t) (filename : string)
    (cache c : Cache) (st st' : World rng) :
  NumentaPreprocessor._process self filename cache st = (Ok c, st') ->
  verify c = verify cache /\ is_Some (data c).
Proof.
  unfold NumentaPreprocessor._process. intros Hrun.
  do 5 run_head Hrun.
  injection Hrun as <- _. split; [reflexivity | now eexists].
Qed.

Lemma altgeo_process_keeps_verify (self : AltGeoPreprocessor.t) (filename : string)
    (cache c : Cache) (st st' : World rng) :
  AltGeoPreprocessor._process self filename cache st = (Ok c, st') ->
  verify c = verify cache /\ is_Some (data c).
Proof.
  unfold AltGeoPreprocessor._process. intros Hrun.
  do 5 run_head Hrun.
  injection Hrun as <- _. split; [reflexivity | now eexists].
Qed.
End KeepsVerify.

Section BatchClaims.
Context `{Hashlib, Random, Numpy, Pandas, Pyproj}.
Import AbstractPreprocessor.

Lemma process_no_cache {P : Type} `{!AbstractPreprocessor P} (self : P)
    (csvfile cachedfile : string) (st : World rng) :
  process self csvfile false cachedfile st =
    match _process self csvfile {| verify := ""; data := None |} st with
    | (Ok cache, st') => (Ok (data cache), st')
    | (Raise e, st') => (Raise e, st')
    end.
Proof. unfold process. now rewrite io_bind_run. Qed.

Lemma encode_point_total (self : NumentaPreprocessor.t) (data_point : Q * Q * Q) :
  NumentaPreprocessor.scale self <> 0 -> 0 < NumentaPreprocessor.w self ->
  0 < NumentaPreprocessor.n self ->
  exists v, encode_point self data_point = Ok v.
Proof.
  intros Hs Hw Hn.
  destruct (encode_point_bits self data_point Hs Hw Hn) as (v & Hv & _).
  now exists v.
Qed.


(** C10.  When the digit strings of some record of the file do not fit
    (one is longer than its precomputed width, or holds a character that
    is no digit, such as the minus sign of a negative value), [__encode]
    raises on that record, [_process] raises and leaves the world as it
    was, and so does [process], with the cache on (no entry under the
    hash) as with the cache off: no batch is returned and nothing is
    written under the cache path. *)
Theorem digit_overflow_aborts_batch (self : AltGeoPreprocessor.t)
    (csvfile cachedfile : string) (ls : list string) (df : gmap string (list Q))
    (speeds latitudes longitudes : list Q) (i : nat) (record : Q * Q * Q)
    (st : World rng) :
  files st !! csvfile = Some (Text ls) ->
  read_csv ls = Ok df ->
  df !! "speed" = Some speeds ->
  df !! "latitude" = Some latitudes ->
  df !! "longitude" = Some longitudes ->
  zip3 speeds latitudes longitudes !! i = Some record ->
  record_fits self record = false ->
  (files st !! cachedfile = None \/
   exists e, files st !! cachedfile = Some (Pickled e) /\
             verify e <> md5_hexdigest (String.concat "" ls ++ __name__ AltGeoPreprocessor.t)) ->
  exists e,
    AltGeoPreprocessor.encode_record self record = Raise e /\
    exists e',
    (forall cache, AltGeoPreprocessor._process self csvfile cache st = (Raise e', st)) /\
    process self csvfile true cachedfile st = (Raise e', st) /\
    process self csvfile false cachedfile st = (Raise e', st).
Proof.
  intros Hf Hdf Hs Hla Hlo Hin Hfit Hmiss.
  apply list_elem_of_lookup_2 in Hin.
  destruct (encode_record_overflow self record Hfit) as [e He].
  exists e. split; [exact He |].
  destruct (mapM_Raise _ _ _ _ Hin He) as [e' He'].
  assert (Hrun : forall cache,
             AltGeoPreprocessor._process self csvfile cache st = (Raise e', st)).
  { intros cache.
    rewrite (altgeo_process_run self csvfile cache ls df _ _ _ st Hf Hdf Hs Hla Hlo).
    now rewrite He'. }
  exists e'. split; [exact Hrun |]. split.
  - rewrite (process_miss self csvfile cachedfile ls st Hf Hmiss).
    unfold recompute. change (_process self) with (AltGeoPreprocessor._process self).
    now rewrite Hrun.
  - rewrite process_no_cache. change (_process self) with (AltGeoPreprocessor._process self).
    now rewrite Hrun.
Qed.
End BatchClaims.


Lemma digit_overflow_aborts_batch_witness :
  let st := sample_world Sample.csv_out_of_range None in
  let self := AltGeoPreprocessor.default in
  exists e,
    AltGeoPreprocessor.encode_record self (-1, 40, -73)%Q = Raise e /\
    exists e',
    (forall cache, AltGeoPreprocessor._process self "data.csv" cache st = (Raise e', st)) /\
    AbstractPreprocessor.process self "data.csv" true "./processed/data.p" st = (Raise e', st) /\
    AbstractPreprocessor.process self "data.csv" false "./processed/data.p" st = (Raise e', st).
Proof.
  apply (digit_overflow_aborts_batch (H := Sample_hashlib) (H0 := Sample_random)
           (H2 := Sample_pandas)
           AltGeoPreprocessor.default "data.csv" "./processed/data.p"
           Sample.csv_out_of_range
           (Sample.frame [(5, 40, -73); (-1, 40, -73); (1000, 40, -73)]%Q)
           [5; -1; 1000]%Q [40; 40; 40]%Q [-73; -73; -73]%Q 1%nat (-1, 40, -73)%Q).
  - vm_compute. reflexivity.
  - vm_compute. reflexivity.
  - reflexivity.
  - reflexivity.
  - reflexivity.
  - reflexivity.
  - vm_compute. reflexivity.
  - left. vm_compute. reflexivity.
Defined.

(** The two ways of not fitting, on the defaults: a negative speed gives
    the string "-10", whose minus sign is no digit ([ValueError]); the
    speed 1000 gives "10000", five characters for four rows
    ([IndexError]). *)
Lemma digit_overflow_examples :
  let self := AltGeoPreprocessor.default in
  AltGeoPreprocessor.speed_str self (-1) = "-10" /\
  AltGeoPreprocessor.encode_record self (-1, 40, -73)%Q = Raise ValueError /\
  AltGeoPreprocessor.speed_str self 1000 = "10000" /\
  AltGeoPreprocessor.encode_record self (1000, 40, -73)%Q = Raise IndexError /\
  AltGeoPreprocessor.latitude_str self (-91) = "-1000000" /\
  AltGeoPreprocessor.encode_record self (5, -91, -73)%Q = Raise ValueError /\
  (AbstractPreprocessor.process self "data.csv" true "./processed/data.p"
     (sample_world Sample.csv_out_of_range None))
  = (Raise ValueError, sample_world Sample.csv_out_of_range None).
Proof. vm_compute. repeat split. Qed.

(** * Further properties *)

(** ** Decimal strings

    [str] prints with the decimal printer of the Standard Library.  The
    lemmas below relate the string to the number: a minus sign then
    digits for a negative number, digits only otherwise, as many as the
    size of the number asks for, and no two numbers with the same
    string. *)

Lemma string_of_uint_length (d : Decimal.uint) :
  String.length (NilEmpty.string_of_uint d) = Decimal.nb_digits d.
Proof. induction d; simpl; congruence. Qed.

Lemma string_of_uint_digits (d : Decimal.uint) :
  all_digits (NilEmpty.string_of_uint d) = true.
Proof. induction d; simpl; [reflexivity | assumption ..]. Qed.

Lemma str_pos (p : positive) : str (Z.pos p) = NilEmpty.string_of_uint (Pos.to_uint p).
Proof.
  unfold str. simpl. pose proof (DecimalPos.Unsigned.to_uint_nonnil p) as Hp.
  now destruct (Pos.to_uint p).
Qed.

Lemma str_neg (p : positive) : str (Z.neg p) = String "-" (str (Z.pos p)).
Proof. reflexivity. Qed.

Lemma of_lu_bound (d : Decimal.uint) :
  (DecimalPos.Unsigned.of_lu d < 10 ^ N.of_nat (Decimal.nb_digits d))%N.
Proof.
  induction d; cbn [DecimalPos.Unsigned.of_lu Decimal.nb_digits];
    rewrite ?Nat2N.inj_succ, ?N.pow_succ_r'; simpl; lia.
Qed.

Lemma of_lu_short (k : nat) (n : N) :
  (n < 10 ^ N.of_nat k)%N ->
  exists d, DecimalPos.Unsigned.of_lu d = n /\ (Decimal.nb_digits d <= k)%nat.
Proof.
  revert n. induction k as [|k IH]; intros n Hn.
  - exists Decimal.Nil. simpl in *. split; [lia | lia].
  - rewrite Nat2N.inj_succ, N.pow_succ_r' in Hn.
    destruct (IH (n / 10)%N) as (d & Hd & Hlen).
    { apply N.Div0.div_lt_upper_bound. lia. }
    pose proof (N.div_mod n 10 ltac:(lia)) as Hdm.
    pose proof (N.mod_lt n 10 ltac:(lia)) as Hm.
    assert (Hcases : (n mod 10 = 0 \/ n mod 10 = 1 \/ n mod 10 = 2 \/ n mod 10 = 3 \/
                      n mod 10 = 4 \/ n mod 10 = 5 \/ n mod 10 = 6 \/ n mod 10 = 7 \/
                      n mod 10 = 8 \/ n mod 10 = 9)%N).
    { clear -Hm. revert Hm. generalize (n mod 10)%N. intros m Hm. lia. }
    destruct Hcases as [E | [E | [E | [E | [E | [E | [E | [E | [E | E]]]]]]]]];
      [exists (Decimal.D0 d) | exists (Decimal.D1 d) | exists (Decimal.D2 d)
      | exists (Decimal.D3 d) | exists (Decimal.D4 d) | exists (Decimal.D5 d)
      | exists (Decimal.D6 d) | exists (Decimal.D7 d) | exists (Decimal.D8 d)
      | exists (Decimal.D9 d)];
      cbn [DecimalPos.Unsigned.of_lu Decimal.nb_digits]; rewrite Hd; split; lia.
Qed.

Lemma to_uint_digits_le (p : positive) (k : nat) :
  (N.pos p < 10 ^ N.of_nat k)%N -> (Decimal.nb_digits (Pos.to_uint p) <= k)%nat.
Proof.
  intros Hp. destruct (of_lu_short k (N.pos p) Hp) as (d & Hd & Hlen).
  unfold Pos.to_uint. rewrite DecimalFacts.nb_digits_rev.
  change (Pos.to_little_uint p) with (DecimalPos.Unsigned.to_lu (N.pos p)).
  rewrite <- Hd, DecimalPos.Unsigned.to_of_lu. unfold DecimalFacts.lnorm.
  assert (Hnz : DecimalFacts.nztail d <> Decimal.Nil).
  { intros E. apply DecimalPos.Unsigned.of_lu_0 in E. lia. }
  assert (Hle : (Decimal.nb_digits (DecimalFacts.nztail d) <= Decimal.nb_digits d)%nat).
  { clear. induction d; simpl; try lia.
    destruct (DecimalFacts.nztail d); simpl in *; lia. }
  destruct (DecimalFacts.nztail d); [done | lia ..].
Qed.

Lemma to_uint_value_lt (p : positive) :
  (N.pos p < 10 ^ N.of_nat (Decimal.nb_digits (Pos.to_uint p)))%N.
Proof.
  rewrite <- (DecimalPos.Unsigned.of_to p) at 1. rewrite DecimalPos.Unsigned.of_uint_alt.
  rewrite <- (DecimalFacts.nb_digits_rev (Pos.to_uint p)). apply of_lu_bound.
Qed.

(** The string of a number that is not negative holds decimal digits only. *)
Lemma str_nonneg_digits (z : Z) : 0 <= z -> all_digits (str z) = true.
Proof.
  destruct z as [|p|p]; intros Hz; [reflexivity | | lia].
  rewrite str_pos. apply string_of_uint_digits.
Qed.

Lemma str_length_pos (z : Z) : (1 <= String.length (str z))%nat.
Proof.
  assert (Hp : forall p, (1 <= String.length (str (Z.pos p)))%nat).
  { intros p. rewrite str_pos, string_of_uint_length.
    pose proof (DecimalPos.Unsigned.to_uint_nonnil p) as Hp.
    destruct (Pos.to_uint p); simpl; [done | lia ..]. }
  destruct z as [|p|p]; [simpl; lia | apply Hp |].
  rewrite str_neg. simpl. lia.
Qed.

(** [k] digits are enough below [10^k], and more are needed from [10^k] on. *)
Lemma str_length_le (z : Z) (k : nat) :
  (1 <= k)%nat -> 0 <= z < 10 ^ Z.of_nat k -> (String.length (str z) <= k)%nat.
Proof.
  intros Hk Hz. destruct z as [|p|p]; [simpl; lia | | lia].
  rewrite str_pos, string_of_uint_length. apply to_uint_digits_le.
  apply N2Z.inj_lt. rewrite N2Z.inj_pow. rewrite nat_N_Z. simpl. lia.
Qed.

Lemma str_length_gt (z : Z) (k : nat) :
  10 ^ Z.of_nat k <= z -> (k < String.length (str z))%nat.
Proof.
  intros Hz. destruct z as [|p|p]; [lia | | lia].
  rewrite str_pos, string_of_uint_length.
  pose proof (to_uint_value_lt p) as Hlt.
  apply N2Z.inj_lt in Hlt. rewrite N2Z.inj_pow, nat_N_Z in Hlt. simpl in Hlt.
  apply Nat2Z.inj_lt. apply (Z.pow_lt_mono_r_iff 10); lia.
Qed.

Lemma str_length_mono (x y : Z) :
  0 <= x <= y -> (String.length (str x) <= String.length (str y))%nat.
Proof.
  intros Hxy. apply str_length_le; [apply str_length_pos |].
  split; [lia |].
  destruct (Z.lt_ge_cases y (10 ^ Z.of_nat (String.length (str y)))) as [Hlt | Hge]; [lia |].
  apply str_length_gt in Hge. lia.
Qed.

Lemma str_inj (a b : Z) : str a = str b -> a = b.
Proof.
  unfold str. intros Heq. apply DecimalZ.to_int_inj.
  assert (Hparse : forall z, NilZero.int_of_string (NilZero.string_of_int (Z.to_int z))
                             = Some (Z.to_int z)).
  { intros z. apply NilZero.isi; destruct z as [|p|p]; simpl; try discriminate;
      intros [= E]; now apply (DecimalPos.Unsigned.to_uint_nonnil p). }
  apply (f_equal NilZero.int_of_string) in Heq. rewrite !Hparse in Heq. congruence.
Qed.

(** A decimal string is cut at its first character that is no digit. *)
Lemma digits_prefix_split (s1 s2 : string) (c1 c2 : ascii) (t1 t2 : string) :
  all_digits s1 = true -> all_digits s2 = true ->
  is_digit c1 = false -> is_digit c2 = false ->
  s1 ++ String c1 t1 = s2 ++ String c2 t2 -> s1 = s2 /\ t1 = t2.
Proof.
  revert s2. induction s1 as [|x s1 IH]; intros [|y s2] H1 H2 Hc1 Hc2 Heq;
    rewrite ?string_append_cons in Heq; simpl in H1, H2.
  - injection Heq as _ ->. now split.
  - injection Heq as -> _. apply andb_true_iff in H2 as [H2 _]. congruence.
  - injection Heq as -> _. apply andb_true_iff in H1 as [H1 _]. congruence.
  - injection Heq as -> Heq.
    apply andb_true_iff in H1 as [_ H1]. apply andb_true_iff in H2 as [_ H2].
    destruct (IH s2 H1 H2 Hc1 Hc2 Heq) as [-> ->]. now split.
Qed.

Lemma str_sign (z : Z) :
  exists s, all_digits s = true /\ s <> "" /\
            str z = if z <? 0 then String "-" s else s.
Proof.
  destruct z as [|p|p].
  - exists "0". now repeat split.
  - exists (str (Z.pos p)). split; [now apply str_nonneg_digits |]. split; [| reflexivity].
    pose proof (str_length_pos (Z.pos p)). now destruct (str (Z.pos p)).
  - exists (str (Z.pos p)). split; [now apply str_nonneg_digits |]. split; [| reflexivity].
    pose proof (str_length_pos (Z.pos p)). now destruct (str (Z.pos p)).
Qed.

Lemma coordinate_key_split (a b a' b' : Z) :
  str a ++ "," ++ str b = str a' ++ "," ++ str b' -> a = a' /\ b = b'.
Proof.
  intros Heq.
  destruct (str_sign a) as (s & Hs & Hne & Ha), (str_sign a') as (s' & Hs' & Hne' & Ha').
  rewrite Ha, Ha' in Heq.
  change ("," ++ ?t) with (String "," t) in Heq.
  assert (Hcut : str a = str a' /\ str b = str b').
  { rewrite Ha, Ha'.
    destruct (a <? 0), (a' <? 0); rewrite ?string_append_cons in Heq.
    - injection Heq as Heq. now apply digits_prefix_split in Heq as [-> ->].
    - destruct s' as [|c s']; [done |]. rewrite string_append_cons in Heq.
      injection Heq as <- _. simpl in Hs'. discriminate.
    - destruct s as [|c s]; [done |]. rewrite string_append_cons in Heq.
      injection Heq as -> _. simpl in Hs. discriminate.
    - now apply digits_prefix_split in Heq as [-> ->]. }
  destruct Hcut as [E1 E2]. split; now apply str_inj.
Qed.

(** ** DigitOneHotEncoder: the records that are encoded *)

Section DigitRange.
Import AltGeoPreprocessor.

Lemma encode_from_too_long (s : string) (pre : list (list Z)) (k : nat) :
  all_digits s = true -> (k < String.length s)%nat ->
  encode_from (length pre) s (pre ++ np_zeros k 10)%list = Raise IndexError.
Proof.
  revert pre k. induction s as [|c s IH]; intros pre k Hs Hlen; [simpl in Hlen; lia |].
  simpl in Hs. apply andb_true_iff in Hs as [Hc Hs].
  destruct k as [|k].
  - rewrite encode_from_cons.
    now rewrite lookup_ge_None_2 by (rewrite length_app; simpl; lia).
  - rewrite (encode_from_digit c s pre k Hc). apply IH; [done | simpl in Hlen; lia].
Qed.

Lemma encode_from_non_digit (s1 : string) (c : ascii) (s2 : string)
    (pre : list (list Z)) (k : nat) :
  all_digits s1 = true -> is_digit c = false -> (String.length s1 < k)%nat ->
  encode_from (length pre) (s1 ++ String c s2) (pre ++ np_zeros k 10)%list
  = Raise ValueError.
Proof.
  revert pre k. induction s1 as [|x s1 IH]; intros pre k Hs Hc Hlen.
  - destruct k as [|k]; [lia |].
    change ("" ++ String c s2) with (String c s2).
    rewrite encode_from_cons, np_zeros_S.
    rewrite lookup_app_r, Nat.sub_diag by lia.
    change ((replicate 10 0 :: np_zeros k 10) !! 0%nat) with (Some (replicate 10 0)).
    now rewrite (int_of_char_other c Hc).
  - simpl in Hs. apply andb_true_iff in Hs as [Hx Hs].
    destruct k as [|k]; [simpl in Hlen; lia |].
    rewrite string_append_cons, (encode_from_digit x _ pre k Hx).
    apply IH; [done | done | simpl in Hlen; lia].
Qed.

Lemma encode_str_negative (z : Z) (k : nat) :
  (1 <= k)%nat -> z < 0 -> __encode (str z) (np_zeros k 10) = Raise ValueError.
Proof.
  intros Hk Hz. destruct z as [|p|p]; [lia | lia |]. rewrite str_neg.
  exact (encode_from_non_digit "" "-" _ [] k eq_refl eq_refl Hk).
Qed.

Lemma int_of_float_nonneg (x : Q) : (0 <= x)%Q -> int_of_float x = Qfloor x.
Proof.
  destruct x as [n d]. unfold Qle, int_of_float, Qfloor. simpl. intros Hn.
  apply Z.quot_div_nonneg; lia.
Qed.

Lemma Qfloor_nonneg (x : Q) : (0 <= x)%Q -> 0 <= Qfloor x.
Proof. intros Hx. change 0 with (Qfloor 0). now apply Qfloor_resp_le. Qed.

Lemma Qfloor_neg (x : Q) : (x < 0)%Q -> Qfloor x < 0.
Proof.
  intros Hx. pose proof (Qfloor_le x) as Hle.
  assert (H : (inject_Z (Qfloor x) < inject_Z 0)%Q) by (eapply Qle_lt_trans; eauto).
  now rewrite <- Zlt_Qlt in H.
Qed.

Lemma gconst_pos (self : t) : (0 < gconst self)%Q.
Proof. unfold gconst. now apply Qpower_0_lt. Qed.

Lemma sconst_pos (self : t) : (0 < sconst self)%Q.
Proof. unfold sconst. now apply Qpower_0_lt. Qed.

(** A scaled value between zero and the scaled maximum has a digit string that fits
    the width computed from the maximum. *)
Lemma scaled_fits (x m : Q) :
  (0 <= x)%Q -> (x <= m)%Q ->
  fits (String.length (str (int_of_float m))) (str (Qfloor x)) = true.
Proof.
  intros H0 Hm. unfold fits.
  rewrite (str_nonneg_digits _ (Qfloor_nonneg _ H0)), andb_true_r.
  apply Nat.leb_le. rewrite int_of_float_nonneg by (now apply (Qle_trans _ x)).
  apply str_length_mono. split; [now apply Qfloor_nonneg | now apply Qfloor_resp_le].
Qed.

Lemma in_range_fits (self : t) (speed latitude longitude : Q) :
  (-90 <= latitude)%Q -> (latitude <= 270)%Q ->
  (-180 <= longitude)%Q -> (longitude <= 180)%Q ->
  (0 <= speed)%Q -> (speed <= s_max self)%Q ->
  record_fits self (speed, latitude, longitude) = true.
Proof.
  intros Hla1 Hla2 Hlo1 Hlo2 Hs1 Hs2.
  pose proof (gconst_pos self) as Hg. pose proof (sconst_pos self) as Hsc.
  unfold record_fits, gdigits, sdigits, latitude_str, longitude_str, speed_str.
  rewrite !andb_true_iff. repeat split; apply scaled_fits.
  - apply Qmult_le_0_compat; Lqa.lra.
  - apply Qmult_le_compat_r; Lqa.lra.
  - apply Qmult_le_0_compat; Lqa.lra.
  - apply Qmult_le_compat_r; Lqa.lra.
  - apply Qmult_le_0_compat; Lqa.lra.
  - apply Qmult_le_compat_r; Lqa.lra.
Qed.

Lemma gdigits_pos (self : t) : (1 <= gdigits self)%nat.
Proof. apply str_length_pos. Qed.

Lemma sdigits_pos (self : t) : (1 <= sdigits self)%nat.
Proof. apply str_length_pos. Qed.

Lemma scaled_negative (x c : Q) : (x < 0)%Q -> (0 < c)%Q -> Qfloor (x * c) < 0.
Proof.
  intros Hx Hc. apply Qfloor_neg.
  assert (H : (x * c < 0 * c)%Q) by now apply Qmult_lt_compat_r.
  now rewrite Qmult_0_l in H.
Qed.

Lemma encode_record_lat_negative (self : t) (speed latitude longitude : Q) :
  (latitude < -90)%Q -> encode_record self (speed, latitude, longitude) = Raise ValueError.
Proof.
  intros Hlat. unfold encode_record, latitude_str.
  rewrite encode_str_negative; [reflexivity | apply gdigits_pos |].
  apply scaled_negative; [Lqa.lra | apply gconst_pos].
Qed.

Lemma Zpower_gconst (self : t) :
  0 <= g_prec self -> (360 * gconst self == inject_Z (360 * 10 ^ g_prec self))%Q.
Proof.
  intros Hg. unfold gconst. rewrite inject_Z_mult, Zpower_Qpower by done. reflexivity.
Qed.

Lemma gdigits_of_precision (self : t) :
  0 <= g_prec self -> gdigits self = (Z.to_nat (g_prec self) + 3)%nat.
Proof.
  intros Hg. unfold gdigits.
  assert (Hpos : (0 <= 360 * gconst self)%Q).
  { pose proof (gconst_pos self). Lqa.lra. }
  rewrite (int_of_float_nonneg _ Hpos), (Qfloor_comp _ _ (Zpower_gconst self Hg)), Qfloor_Z.
  assert (Hp : 0 < 10 ^ g_prec self) by (apply Z.pow_pos_nonneg; lia).
  apply Nat.le_antisymm.
  - apply str_length_le; [lia |].
    rewrite Nat2Z.inj_add, Z2Nat.id, Z.pow_add_r by lia. lia.
  - assert (Hgt : (Z.to_nat (g_prec self) + 2 < String.length (str (360 * 10 ^ g_prec self)))%nat);
      [| lia].
    apply str_length_gt.
    rewrite Nat2Z.inj_add, Z2Nat.id, Z.pow_add_r by lia. lia.
Qed.

Lemma fits_str_iff (z : Z) (k : nat) :
  (1 <= k)%nat -> fits k (str z) = true <-> 0 <= z < 10 ^ Z.of_nat k.
Proof.
  intros Hk. unfold fits. rewrite andb_true_iff, Nat.leb_le. split.
  - intros [Hlen Hdig]. split.
    + destruct z as [|p|p]; [lia | lia |]. rewrite str_neg in Hdig. discriminate.
    + destruct (Z.lt_ge_cases z (10 ^ Z.of_nat k)) as [Hlt | Hge]; [done |].
      apply str_length_gt in Hge. lia.
  - intros Hz. split; [now apply str_length_le | apply str_nonneg_digits; lia].
Qed.

Lemma Qfloor_lt_iff (x : Q) (n : Z) : Qfloor x < n <-> (x < inject_Z n)%Q.
Proof.
  split.
  - intros Hlt. eapply Qlt_le_trans; [apply Qlt_floor |]. rewrite <- Zle_Qle. lia.
  - intros Hlt. rewrite Zlt_Qlt. eapply Qle_lt_trans; [apply Qfloor_le | done].
Qed.

Lemma Qfloor_nonneg_iff (x : Q) : 0 <= Qfloor x <-> (0 <= x)%Q.
Proof.
  split; [| apply Qfloor_nonneg].
  intros Hf. destruct (Qlt_le_dec x 0) as [Hneg | Hpos]; [| done].
  apply Qfloor_neg in Hneg. lia.
Qed.

(** The scaled value [(x + shift) * 10^g] is a digit string of at most [g + 3]
    digits exactly when [x + shift] lies in [0, 1000). *)
Lemma geo_fits_iff (self : t) (x shift : Q) :
  0 <= g_prec self ->
  fits (gdigits self) (str (Qfloor ((x + shift) * gconst self))) = true <->
  (0 <= x + shift)%Q /\ (x + shift < 1000)%Q.
Proof.
  intros Hg. pose proof (gconst_pos self) as Hc.
  rewrite (fits_str_iff _ _ (gdigits_pos self)), Qfloor_nonneg_iff, Qfloor_lt_iff.
  rewrite (gdigits_of_precision self Hg).
  assert (Hk : (inject_Z (10 ^ Z.of_nat (Z.to_nat (g_prec self) + 3)) == 1000 * gconst self)%Q).
  { rewrite Nat2Z.inj_add, Z2Nat.id, Z.pow_add_r by lia.
    rewrite inject_Z_mult, Zpower_Qpower by done. unfold gconst.
    change (inject_Z 10) with (10 # 1)%Q. change (inject_Z (10 ^ Z.of_nat 3)) with 1000%Q.
    ring. }
  rewrite Hk. split.
  - intros [H0 H1]. split.
    + destruct (Qlt_le_dec (x + shift) 0) as [Hneg | Hpos]; [| done].
      assert (H : ((x + shift) * gconst self < 0 * gconst self)%Q)
        by now apply Qmult_lt_compat_r.
      rewrite Qmult_0_l in H. exfalso. Lqa.lra.
    + now apply (Qmult_lt_r _ _ (gconst self)).
  - intros [H0 H1]. split.
    + apply Qmult_le_0_compat; Lqa.lra.
    + now apply (Qmult_lt_r _ _ (gconst self)).
Qed.

Lemma speed_fits_iff (self : t) (speed : Q) :
  fits (sdigits self) (speed_str self speed) = true <->
  (0 <= speed)%Q /\ (speed * sconst self < inject_Z (10 ^ Z.of_nat (sdigits self)))%Q.
Proof.
  pose proof (sconst_pos self) as Hc. unfold speed_str.
  rewrite (fits_str_iff _ _ (sdigits_pos self)), Qfloor_nonneg_iff, Qfloor_lt_iff.
  split; intros [H0 H1]; (split; [| done]).
  - destruct (Qlt_le_dec speed 0) as [Hneg | Hpos]; [| done].
    assert (H : (speed * sconst self < 0 * sconst self)%Q)
      by now apply Qmult_lt_compat_r.
    rewrite Qmult_0_l in H. exfalso. Lqa.lra.
  - apply Qmult_le_0_compat; Lqa.lra.
Qed.

Lemma encode_record_ok_iff (self : t) (record : Q * Q * Q) :
  is_ok (encode_record self record) = true <-> record_fits self record = true.
Proof.
  split.
  - destruct (encode_record self record) as [v |] eqn:Hv; [| discriminate].
    intros _. now apply (encode_record_ok_fits self record v).
  - intros Hfit. now rewrite (encode_record_fits self record Hfit).
Qed.

Lemma one_hot_inj (d d' : Z) :
  0 <= d < 10 -> 0 <= d' < 10 -> one_hot d = one_hot d' -> d = d'.
Proof.
  intros Hd Hd' Heq.
  assert (H1 : one_hot d' !! Z.to_nat d = Some 1).
  { rewrite <- Heq. unfold one_hot. apply list_lookup_insert_eq.
    rewrite length_replicate. lia. }
  unfold one_hot in H1.
  destruct (decide (Z.to_nat d' = Z.to_nat d)) as [E | Hne]; [lia |].
  rewrite list_lookup_insert_ne in H1 by done.
  apply lookup_replicate in H1 as [? _]. discriminate.
Qed.

Lemma one_hot_not_zero (d : Z) : 0 <= d < 10 -> one_hot d <> replicate 10 0.
Proof.
  intros Hd Heq.
  assert (H1 : one_hot d !! Z.to_nat d = Some 1).
  { unfold one_hot. apply list_lookup_insert_eq. rewrite length_replicate. lia. }
  rewrite Heq in H1. apply lookup_replicate in H1 as [? _]. discriminate.
Qed.

Lemma digit_value_inj (c c' : ascii) : digit_value c = digit_value c' -> c = c'.
Proof.
  unfold digit_value. intros Heq.
  rewrite <- (ascii_nat_embedding c), <- (ascii_nat_embedding c'). f_equal. lia.
Qed.

Lemma blocks_inj (k : nat) (s s' : string) :
  fits k s = true -> fits k s' = true -> blocks k s = blocks k s' -> s = s'.
Proof.
  unfold fits, blocks. revert k s'.
  induction s as [|c s IH]; intros k [|c' s'] Hs Hs' Heq; [reflexivity | | |].
  - apply andb_true_iff in Hs' as [Hlen Hd]. apply Nat.leb_le in Hlen.
    simpl in Hd. apply andb_true_iff in Hd as [Hc _].
    destruct k as [|k]; [simpl in Hlen; lia |].
    simpl in Heq. injection Heq as Heq _. symmetry in Heq.
    apply one_hot_not_zero in Heq; [done |]. now destruct (int_of_char_digit c' Hc).
  - apply andb_true_iff in Hs as [Hlen Hd]. apply Nat.leb_le in Hlen.
    simpl in Hd. apply andb_true_iff in Hd as [Hc _].
    destruct k as [|k]; [simpl in Hlen; lia |].
    simpl in Heq. injection Heq as Heq _.
    apply one_hot_not_zero in Heq; [done |]. now destruct (int_of_char_digit c Hc).
  - apply andb_true_iff in Hs as [Hlen Hd]. apply Nat.leb_le in Hlen.
    apply andb_true_iff in Hs' as [Hlen' Hd']. apply Nat.leb_le in Hlen'.
    simpl in Hd, Hd'. apply andb_true_iff in Hd as [Hc Hd].
    apply andb_true_iff in Hd' as [Hc' Hd'].
    destruct k as [|k]; [simpl in Hlen; lia |].
    simpl in Heq. injection Heq as Hrow Heq.
    apply one_hot_inj in Hrow;
      [| now destruct (int_of_char_digit c Hc) | now destruct (int_of_char_digit c' Hc')].
    apply digit_value_inj in Hrow as ->. f_equal.
    apply (IH k s').
    + simpl in Hlen. rewrite Hd, andb_true_r. apply Nat.leb_le. lia.
    + simpl in Hlen'. rewrite Hd', andb_true_r. apply Nat.leb_le. lia.
    + exact Heq.
Qed.

Lemma concat_uniform_inj (rows rows' : list (list Z)) :
  Forall (fun r => length r = 10%nat) rows ->
  Forall (fun r => length r = 10%nat) rows' ->
  concat rows = concat rows' -> rows = rows'.
Proof.
  intros Hrows. revert rows'.
  induction Hrows as [|r rows Hr _ IH]; intros rows' Hrows' Heq.
  - destruct Hrows' as [|r' rows' Hr' _]; [reflexivity |].
    simpl in Heq. destruct r'; [discriminate | discriminate].
  - destruct Hrows' as [|r' rows' Hr' Hrows'].
    + simpl in Heq. destruct r; [discriminate | discriminate].
    + simpl in Heq. apply app_inj_1 in Heq as [-> Heq]; [| congruence].
      f_equal. now apply IH.
Qed.

Lemma record_rows_inj (self : t) (r r' : Q * Q * Q) :
  record_fits self r = true -> record_fits self r' = true ->
  concat (record_rows self r) = concat (record_rows self r') ->
  latitude_str self r.1.2 = latitude_str self r'.1.2 /\
  longitude_str self r.2 = longitude_str self r'.2 /\
  speed_str self r.1.1 = speed_str self r'.1.1.
Proof.
  destruct r as [[speed latitude] longitude], r' as [[speed' latitude'] longitude'].
  unfold record_fits, record_rows. rewrite !andb_true_iff.
  intros [[Hla Hlo] Hsp] [[Hla' Hlo'] Hsp'] Heq. simpl.
  apply concat_uniform_inj in Heq;
    [| rewrite !Forall_app; auto using blocks_uniform ..].
  apply app_inj_1 in Heq as [E1 Heq]; [| now rewrite !blocks_length].
  apply app_inj_1 in Heq as [E2 E3]; [| now rewrite !blocks_length].
  repeat split; eapply blocks_inj; eauto.
Qed.

End DigitRange.

Lemma str_length_spec (z : Z) :
  1 <= z -> 10 ^ (Z.of_nat (String.length (str z)) - 1) <= z < 10 ^ Z.of_nat (String.length (str z)).
Proof.
  intros Hz. pose proof (str_length_pos z) as Hpos. split.
  - destruct (Z.le_gt_cases (10 ^ (Z.of_nat (String.length (str z)) - 1)) z) as [Hle | Hgt];
      [done |].
    destruct (decide (String.length (str z) = 1%nat)) as [E | Hne].
    + rewrite E in Hgt. simpl in Hgt. lia.
    + assert (Hlen : (String.length (str z) <= String.length (str z) - 1)%nat).
      { apply str_length_le; [lia |]. split; [lia |].
        now replace (Z.of_nat (String.length (str z) - 1))
          with (Z.of_nat (String.length (str z)) - 1) by lia. }
      lia.
  - destruct (Z.lt_ge_cases z (10 ^ Z.of_nat (String.length (str z)))) as [Hlt | Hge]; [done |].
    apply str_length_gt in Hge. lia.
Qed.

Section DigitDomain.
Import AltGeoPreprocessor.

Lemma record_vector_length (self : t) (record : Q * Q * Q) (v : list Z) :
  encode_record self record = Ok v ->
  length v = (10 * (2 * gdigits self + sdigits self))%nat.
Proof.
  intros Hv. pose proof (encode_record_ok_fits _ _ _ Hv) as Hfit.
  rewrite (encode_record_fits _ _ Hfit) in Hv. injection Hv as <-.
  destruct record as [[speed latitude] longitude].
  unfold record_fits in Hfit. rewrite !andb_true_iff in Hfit.
  destruct Hfit as [[Hla Hlo] Hsp]. unfold record_rows.
  rewrite concat_length_uniform by (rewrite !Forall_app; auto using blocks_uniform).
  rewrite !length_app, !blocks_length by done. lia.
Qed.

(** [__encode] on the decimal string of an integer [z] and a zero matrix
    of [k >= 1] rows: a negative [z] raises [ValueError] at its minus
    sign, before anything is written; a [z] of at most [k] digits
    ([0 <= z < 10^k]) gives the one-hot rows of its digits followed by
    zero rows; a longer one raises [IndexError] at the row after the
    last. *)
Theorem encode_decimal_string (z : Z) (k : nat) :
  (1 <= k)%nat ->
  __encode (str z) (np_zeros k 10) =
    if z <? 0 then Raise ValueError
    else if z <? 10 ^ Z.of_nat k then Ok (blocks k (str z))
    else Raise IndexError.
Proof.
  intros Hk. destruct (Z.ltb_spec z 0) as [Hneg | Hpos].
  - now apply encode_str_negative.
  - destruct (Z.ltb_spec z (10 ^ Z.of_nat k)) as [Hlt | Hge].
    + apply encode_zeros_fits. unfold fits.
      rewrite str_nonneg_digits by done. rewrite andb_true_r.
      apply Nat.leb_le. now apply str_length_le.
    + apply (encode_from_too_long _ [] k); [now apply str_nonneg_digits |].
      now apply str_length_gt.
Qed.




(** The widths of the digit encoder.  For [g_prec >= 0] the geographic
    fields have [g_prec + 3] digits (those of [360 * 10^g_prec]); when
    the scaled maximum speed is at least 1, [sdigits] is its number of
    decimal digits; and every vector has
    [10 * (2 * (g_prec + 3) + sdigits)] entries. *)
Theorem digit_widths_of_precision (self : t) :
  0 <= g_prec self -> (1 <= s_max self * sconst self)%Q ->
  gdigits self = (Z.to_nat (g_prec self) + 3)%nat /\
  10 ^ (Z.of_nat (sdigits self) - 1) <= Qfloor (s_max self * sconst self)
    < 10 ^ Z.of_nat (sdigits self) /\
  (forall record v, encode_record self record = Ok v ->
     length v = (10 * (2 * (Z.to_nat (g_prec self) + 3) + sdigits self))%nat).
Proof.
  intros Hg Hs. split; [now apply gdigits_of_precision |]. split.
  - unfold sdigits. rewrite int_of_float_nonneg by Lqa.lra.
    apply str_length_spec.
    change 1 with (Qfloor 1). now apply Qfloor_resp_le.
  - intros record v Hv. rewrite <- (gdigits_of_precision self Hg).
    now apply (record_vector_length self record).
Qed.

End DigitDomain.

Lemma encode_decimal_string_witness :
  AltGeoPreprocessor.__encode (str 50) (np_zeros 4 10) =
    if 50 <? 0 then Raise ValueError
    else if 50 <? 10 ^ Z.of_nat 4 then Ok (blocks 4 (str 50))
    else Raise IndexError.
Proof. apply (encode_decimal_string 50 4). lia. Defined.




Lemma digit_widths_of_precision_witness :
  let self := AltGeoPreprocessor.default in
  AltGeoPreprocessor.gdigits self = (Z.to_nat 6 + 3)%nat /\
  10 ^ (Z.of_nat (AltGeoPreprocessor.sdigits self) - 1)
    <= Qfloor (140 * AltGeoPreprocessor.sconst self)
    < 10 ^ Z.of_nat (AltGeoPreprocessor.sdigits self) /\
  (forall record v, AltGeoPreprocessor.encode_record self record = Ok v ->
     length v = (10 * (2 * (Z.to_nat 6 + 3) + AltGeoPreprocessor.sdigits self))%nat).
Proof.
  apply (digit_widths_of_precision AltGeoPreprocessor.default).
  - simpl. lia.
  - unfold Qle. simpl. lia.
Defined.


(** ** ContentCache: what a run leaves behind *)

Lemma keeps_files_pure `{Random} {A} (m : io A) (r : res A) :
  pure_call m r -> keeps_files m.
Proof. intros Hm st. now destruct (Hm st) as [g ->]. Qed.

Lemma keeps_files_bind `{Random} {A B} (m : io A) (k : A -> io B) :
  keeps_files m -> (forall a, keeps_files (k a)) -> keeps_files (m ≫= k).
Proof.
  intros Hm Hk st. rewrite io_bind_run. specialize (Hm st).
  destruct (m st) as [[a | e] st1]; [| exact Hm].
  simpl in Hm. now rewrite (Hk a st1).
Qed.

Lemma keeps_files_readlines `{Random} (filename : string) : keeps_files (readlines filename).
Proof. intros st. unfold readlines. now destruct (files st !! filename) as [[] |]. Qed.

Lemma keeps_files_lift `{Random} {A} (r : res A) : keeps_files (lift r).
Proof. now intros st. Qed.

Lemma keeps_files_ret `{Random} {A} (a : A) : keeps_files (mret a).
Proof. now intros st. Qed.

Section Hooks.
Context `{Hashlib, Random, Numpy, Pandas, Pyproj}.

Lemma keeps_files_read_csv (filename : string) : keeps_files (pd_read_csv filename).
Proof.
  apply keeps_files_bind; [apply keeps_files_readlines | intros; apply keeps_files_lift].
Qed.

Lemma numenta_process_keeps_files (self : NumentaPreprocessor.t) (filename : string)
    (cache : Cache) :
  keeps_files (NumentaPreprocessor._process self filename cache).
Proof.
  unfold NumentaPreprocessor._process.
  apply keeps_files_bind; [apply keeps_files_read_csv |]. intros data.
  apply keeps_files_bind; [apply keeps_files_lift |]. intros speeds.
  apply keeps_files_bind; [apply keeps_files_lift |]. intros latitudes.
  apply keeps_files_bind; [apply keeps_files_lift |]. intros longitudes.
  apply keeps_files_bind; [| intros; apply keeps_files_ret].
  apply (keeps_files_pure _ (mapM (encode_point self) (zip3 speeds latitudes longitudes))).
  apply pure_call_mapM. intros [[speed latitude] longitude].
  apply pure_call_bind; [apply pure_call_lift |].
  intros output. apply generate_vector_pure.
Qed.

Lemma altgeo_process_keeps_world (self : AltGeoPreprocessor.t) (filename : string)
    (cache : Cache) (st : World rng) :
  (AltGeoPreprocessor._process self filename cache st).2 = st.
Proof.
  unfold AltGeoPreprocessor._process, pd_read_csv.
  rewrite !io_bind_run. unfold readlines.
  destruct (files st !! filename) as [[ls | c] |]; [| reflexivity | reflexivity].
  unfold lift at 1. destruct (read_csv ls) as [df |]; [| reflexivity].
  rewrite io_bind_run. unfold lift at 1. destruct (column df "speed"); [| reflexivity].
  rewrite io_bind_run. unfold lift at 1. destruct (column df "latitude"); [| reflexivity].
  rewrite io_bind_run. unfold lift at 1. destruct (column df "longitude"); [| reflexivity].
  rewrite io_bind_run. unfold lift at 1.
  now destruct (mapM (AltGeoPreprocessor.encode_record self) _).
Qed.
End Hooks.

Section Template.
Context `{Hashlib, Random} {P : Type} `{!AbstractPreprocessor P}.
Import AbstractPreprocessor.

Lemma gen_hash_inv (self : P) (filename : string) (h : string) (st st' : World rng) :
  __gen_hash self filename st = (Ok h, st') ->
  st' = st /\ exists ls, files st !! filename = Some (Text ls) /\
                         h = md5_hexdigest (String.concat "" ls ++ __name__ P).
Proof.
  unfold __gen_hash. rewrite io_bind_run. unfold readlines.
  destruct (files st !! filename) as [[ls | c] |]; [| discriminate | discriminate].
  intros [= <- <-]. split; [reflexivity |]. now exists ls.
Qed.

Lemma gen_hash_keeps_world (self : P) (filename : string) (st : World rng) :
  (__gen_hash self filename st).2 = st.
Proof.
  unfold __gen_hash. rewrite io_bind_run. unfold readlines.
  now destruct (files st !! filename) as [[ls | c] |].
Qed.

Lemma check_file_keeps_world (cachedfile : string) (cache : Cache) (st : World rng) :
  (__check_file cachedfile cache st).2 = st.
Proof.
  unfold __check_file, pickle_load.
  destruct (files st !! cachedfile) as [[ls | c] |]; simpl; [reflexivity | |];
    now destruct (String.eqb _ _).
Qed.

(** [process] changes no path but the cache path, and that one only
    when the cache is on and the hook returned. *)
Lemma process_frame (self : P) (csvfile : string) (use_cache : bool) (cachedfile : string)
    (st : World rng) :
  (forall cache, keeps_files (_process self csvfile cache)) ->
  let run := process self csvfile use_cache cachedfile st in
  (forall path, path <> cachedfile -> files run.2 !! path = files st !! path) /\
  (use_cache = false -> files run.2 = files st) /\
  (is_ok run.1 = false -> files run.2 = files st).
Proof.
  intros Hhook. cbv zeta. unfold process. destruct use_cache.
  - rewrite io_bind_run.
    pose proof (gen_hash_keeps_world self csvfile st) as Hh.
    destruct (__gen_hash self csvfile st) as [[h | e] st0]; simpl in Hh; subst st0;
      [| now repeat split].
    cbv zeta. rewrite io_bind_run.
    pose proof (check_file_keeps_world cachedfile {| verify := h; data := None |} st) as Hc.
    simpl in Hc |- *.
    destruct (__check_file cachedfile _ st) as [[[valid cache] | e] st0]; simpl in Hc; subst st0;
      [| now repeat split].
    destruct valid; [simpl; now repeat split |].
    rewrite io_bind_run. pose proof (Hhook cache st) as Hf.
    destruct (_process self csvfile cache st) as [[c | e] st1]; simpl in Hf;
      [| simpl; repeat split; intros; now rewrite Hf].
    rewrite io_bind_run. unfold __save, pickle_dump. simpl.
    split; [| split; [done | done]].
    intros path Hpath. rewrite lookup_insert_ne by done. now rewrite Hf.
  - rewrite io_bind_run. pose proof (Hhook {| verify := ""; data := None |} st) as Hf.
    destruct (_process self csvfile _ st) as [[c | e] st1]; simpl in Hf |- *;
      repeat split; intros; now rewrite Hf.
Qed.

End Template.

Section Errors.
Context `{Hashlib, Random, Numpy, Pandas, Pyproj}.
Import AbstractPreprocessor.

Lemma read_csv_missing_file (filename : string) (st : World rng) :
  files st !! filename = None ->
  pd_read_csv filename st = (Raise FileNotFoundError, st).
Proof.
  intros Hf. unfold pd_read_csv. rewrite io_bind_run. unfold readlines. now rewrite Hf.
Qed.

Lemma process_missing_input_cached {P : Type} `{!AbstractPreprocessor P} (self : P)
    (csvfile cachedfile : string) (st : World rng) :
  files st !! csvfile = None ->
  process self csvfile true cachedfile st = (Raise FileNotFoundError, st).
Proof.
  intros Hf. unfold process, __gen_hash. rewrite !io_bind_run. unfold readlines.
  now rewrite Hf.
Qed.

Lemma numenta_process_missing_file (self : NumentaPreprocessor.t) (filename : string)
    (cache : Cache) (st : World rng) :
  files st !! filename = None ->
  NumentaPreprocessor._process self filename cache st = (Raise FileNotFoundError, st).
Proof.
  intros Hf. unfold NumentaPreprocessor._process.
  now rewrite io_bind_run, (read_csv_missing_file _ _ Hf).
Qed.

Lemma altgeo_process_missing_file (self : AltGeoPreprocessor.t) (filename : string)
    (cache : Cache) (st : World rng) :
  files st !! filename = None ->
  AltGeoPreprocessor._process self filename cache st = (Raise FileNotFoundError, st).
Proof.
  intros Hf. unfold AltGeoPreprocessor._process.
  now rewrite io_bind_run, (read_csv_missing_file _ _ Hf).
Qed.

Lemma numenta_process_missing_column (self : NumentaPreprocessor.t) (filename : string)
    (cache : Cache) (ls : list string) (df : gmap string (list Q)) (st : World rng) :
  files st !! filename = Some (Text ls) -> read_csv ls = Ok df ->
  df !! "speed" = None \/ df !! "latitude" = None \/ df !! "longitude" = None ->
  NumentaPreprocessor._process self filename cache st = (Raise KeyError, st).
Proof.
  intros Hf Hdf Hmiss. unfold NumentaPreprocessor._process.
  rewrite io_bind_run, (read_frame _ _ _ _ Hf Hdf).
  rewrite io_bind_run. unfold lift at 1, column at 1.
  destruct (df !! "speed") as [speeds |]; [| reflexivity].
  rewrite io_bind_run. unfold lift at 1, column at 1.
  destruct (df !! "latitude") as [latitudes |]; [| reflexivity].
  rewrite io_bind_run. unfold lift at 1, column at 1.
  destruct (df !! "longitude") as [longitudes |]; [| reflexivity].
  now destruct Hmiss as [? | [? | ?]].
Qed.

Lemma altgeo_process_missing_column (self : AltGeoPreprocessor.t) (filename : string)
    (cache : Cache) (ls : list string) (df : gmap string (list Q)) (st : World rng) :
  files st !! filename = Some (Text ls) -> read_csv ls = Ok df ->
  df !! "speed" = None \/ df !! "latitude" = None \/ df !! "longitude" = None ->
  AltGeoPreprocessor._process self filename cache st = (Raise KeyError, st).
Proof.
  intros Hf Hdf Hmiss. unfold AltGeoPreprocessor._process.
  rewrite io_bind_run, (read_frame _ _ _ _ Hf Hdf).
  rewrite io_bind_run. unfold lift at 1, column at 1.
  destruct (df !! "speed") as [speeds |]; [| reflexivity].
  rewrite io_bind_run. unfold lift at 1, column at 1.
  destruct (df !! "latitude") as [latitudes |]; [| reflexivity].
  rewrite io_bind_run. unfold lift at 1, column at 1.
  destruct (df !! "longitude") as [longitudes |]; [| reflexivity].
  now destruct Hmiss as [? | [? | ?]].
Qed.

Lemma process_hook_raises {P : Type} `{!AbstractPreprocessor P} (self : P)
    (csvfile cachedfile : string) (ls : list string) (e : exn) (st : World rng) :
  files st !! csvfile = Some (Text ls) ->
  (forall cache, _process self csvfile cache st = (Raise e, st)) ->
  (files st !! cachedfile = None \/
   exists c, files st !! cachedfile = Some (Pickled c) /\
             verify c <> md5_hexdigest (String.concat "" ls ++ __name__ P)) ->
  forall use_cache, process self csvfile use_cache cachedfile st = (Raise e, st).
Proof.
  intros Hf Hrun Hmiss [|].
  - rewrite (process_miss self csvfile cachedfile ls st Hf Hmiss).
    unfold recompute. now rewrite Hrun.
  - rewrite process_no_cache. now rewrite Hrun.
Qed.
End Errors.

Section TemplateGen.
Context `{Hashlib, Random} {P : Type} `{!AbstractPreprocessor P}.
Import AbstractPreprocessor.

Lemma process_keeps_gen (self : P) (csvfile : string) (use_cache : bool)
    (cachedfile : string) (st : World rng) :
  (forall cache st0, gen (_process self csvfile cache st0).2 = gen st0) ->
  gen (process self csvfile use_cache cachedfile st).2 = gen st.
Proof.
  intros Hhook. unfold process. destruct use_cache.
  - rewrite io_bind_run.
    pose proof (gen_hash_keeps_world self csvfile st) as Hh.
    destruct (__gen_hash self csvfile st) as [[h | e] st0]; simpl in Hh; subst st0;
      [| reflexivity].
    cbv zeta. rewrite io_bind_run.
    pose proof (check_file_keeps_world cachedfile {| verify := h; data := None |} st) as Hc.
    simpl in Hc |- *.
    destruct (__check_file cachedfile _ st) as [[[valid cache] | e] st0]; simpl in Hc; subst st0;
      [| reflexivity].
    destruct valid; [reflexivity |].
    rewrite io_bind_run. pose proof (Hhook cache st) as Hg.
    destruct (_process self csvfile cache st) as [[c | e] st1]; simpl in Hg; [| exact Hg].
    rewrite io_bind_run. unfold __save, pickle_dump. simpl. exact Hg.
  - rewrite io_bind_run. pose proof (Hhook {| verify := ""; data := None |} st) as Hg.
    now destruct (_process self csvfile _ st) as [[c | e] st1].
Qed.

(** A run with the cache on that returned is followed by a hit.  For a
    subclass whose hook leaves the files alone and keeps the hash of the
    dictionary (both hooks of the module do), running [process] again
    on the same input and cache path, with any instance of the class,
    returns the same batch and changes nothing: the hook is not run a
    second time, and the parameters of the second instance are not
    looked at. *)
Theorem second_run_is_served_from_cache (self self' : P) (csvfile cachedfile : string)
    (st : World rng) :
  (forall cache st0 c st1, _process self csvfile cache st0 = (Ok c, st1) ->
     files st1 = files st0 /\ verify c = verify cache) ->
  is_ok (process self csvfile true cachedfile st).1 = true ->
  process self' csvfile true cachedfile (process self csvfile true cachedfile st).2
  = process self csvfile true cachedfile st.
Proof.
  intros Hhook. cbv zeta. intros Hok.
  destruct (__gen_hash self csvfile st) as [[h | e] st0] eqn:Hh.
  2:{ unfold process in Hok. rewrite io_bind_run, Hh in Hok. discriminate. }
  apply gen_hash_inv in Hh as (-> & ls & Hcsv & ->).
  destruct (files st !! cachedfile) as [[ls' | e] |] eqn:Hc.
  - rewrite (process_unreadable self csvfile cachedfile ls ls' st Hcsv Hc) in Hok. discriminate.
  - destruct (decide (verify e = md5_hexdigest (String.concat "" ls ++ __name__ P))) as [Hv | Hv].
    + rewrite (process_hit self csvfile cachedfile ls e st Hcsv Hc Hv). simpl.
      apply (process_hit self' csvfile cachedfile ls e st Hcsv Hc Hv).
    + rewrite (process_miss self csvfile cachedfile ls st Hcsv) in Hok |- *
        by (right; now exists e).
      unfold recompute in *.
      destruct (_process self csvfile _ st) as [[c | x] st1] eqn:Hrun; [| discriminate].
      apply Hhook in Hrun as [Hf Hver]. simpl in Hver. cbn [snd].
      assert (Hne : cachedfile <> csvfile) by (intros ->; congruence).
      rewrite (process_hit self' csvfile cachedfile ls c); simpl; try done.
      * rewrite lookup_insert_ne by done. now rewrite Hf.
      * apply lookup_insert_eq.
  - rewrite (process_miss self csvfile cachedfile ls st Hcsv) in Hok |- * by now left.
    unfold recompute in *.
    destruct (_process self csvfile _ st) as [[c | x] st1] eqn:Hrun; [| discriminate].
    apply Hhook in Hrun as [Hf Hver]. simpl in Hver. cbn [snd].
    assert (Hne : cachedfile <> csvfile) by (intros ->; congruence).
    rewrite (process_hit self' csvfile cachedfile ls c); simpl; try done.
    * rewrite lookup_insert_ne by done. now rewrite Hf.
    * apply lookup_insert_eq.
Qed.
End TemplateGen.

Lemma world_eq {G} (st st' : World G) : files st = files st' -> gen st = gen st' -> st = st'.
Proof. destruct st, st'. simpl. now intros -> ->. Qed.

Section Concrete.
Context `{Hashlib, Random, Numpy, Pandas, Pyproj}.
Import AbstractPreprocessor.

Lemma numenta_hook_contract (self : NumentaPreprocessor.t) (csvfile : string)
    (cache : Cache) (st0 : World rng) (c : Cache) (st1 : World rng) :
  _process self csvfile cache st0 = (Ok c, st1) ->
  files st1 = files st0 /\ verify c = verify cache.
Proof.
  intros Hrun. split.
  - pose proof (numenta_process_keeps_files self csvfile cache st0) as Hf.
    change (_process self) with (NumentaPreprocessor._process self) in Hrun.
    now rewrite Hrun in Hf.
  - now apply (numenta_process_keeps_verify self csvfile cache c st0 st1).
Qed.

(** [process] writes to the cache path and nowhere else.  For both
    encoders and any path other than the cache path, the file under the
    path is the same after the run as before; with the cache off, and
    whenever the run raises, no file changes at all; and the digit
    encoder never touches the generator of [random].  (The directory
    [__save] creates for the cache file is no file of this model.) *)
Theorem process_writes_only_the_cache_path (numenta : NumentaPreprocessor.t)
    (altgeo : AltGeoPreprocessor.t) (csvfile : string) (use_cache : bool)
    (cachedfile path : string) (st : World rng) :
  path <> cachedfile ->
  let run_n := process numenta csvfile use_cache cachedfile st in
  let run_a := process altgeo csvfile use_cache cachedfile st in
  files run_n.2 !! path = files st !! path /\
  files run_a.2 !! path = files st !! path /\
  gen run_a.2 = gen st /\
  (use_cache = false -> files run_n.2 = files st /\ run_a.2 = st) /\
  (is_ok run_n.1 = false -> files run_n.2 = files st) /\
  (is_ok run_a.1 = false -> run_a.2 = st).
Proof.
  intros Hpath run_n run_a.
  destruct (process_frame numenta csvfile use_cache cachedfile st) as (Hn1 & Hn2 & Hn3).
  { intros cache. apply numenta_process_keeps_files. }
  destruct (process_frame altgeo csvfile use_cache cachedfile st) as (Ha1 & Ha2 & Ha3).
  { intros cache st0. simpl.
    change (_process altgeo) with (AltGeoPreprocessor._process altgeo).
    now rewrite altgeo_process_keeps_world. }
  assert (Hgen : gen run_a.2 = gen st).
  { apply process_keeps_gen. intros cache st0.
    change (_process altgeo) with (AltGeoPreprocessor._process altgeo).
    now rewrite altgeo_process_keeps_world. }
  split; [now apply Hn1 |]. split; [now apply Ha1 |]. split; [exact Hgen |].
  split; [| split].
  - intros Hoff. split; [now apply Hn2 | apply world_eq; [now apply Ha2 | exact Hgen]].
  - exact Hn3.
  - intros Hfail. apply world_eq; [now apply Ha3 | exact Hgen].
Qed.

(** What the two hooks leave behind.  [NumentaPreprocessor._process]
    changes no file (it reseeds the generator); [AltGeoPreprocessor._process]
    leaves the whole world as it was; and a hook that returns has kept
    the hash of the dictionary and stored a batch in it. *)
Theorem hooks_leave_files_and_hash (numenta : NumentaPreprocessor.t)
    (altgeo : AltGeoPreprocessor.t) (filename : string) (cache : Cache) (st : World rng) :
  files (NumentaPreprocessor._process numenta filename cache st).2 = files st /\
  (AltGeoPreprocessor._process altgeo filename cache st).2 = st /\
  (forall c st', NumentaPreprocessor._process numenta filename cache st = (Ok c, st') ->
     verify c = verify cache /\ is_Some (data c)) /\
  (forall c st', AltGeoPreprocessor._process altgeo filename cache st = (Ok c, st') ->
     verify c = verify cache /\ is_Some (data c)).
Proof.
  split; [apply numenta_process_keeps_files |].
  split; [apply altgeo_process_keeps_world |].
  split; intros c st'.
  - apply numenta_process_keeps_verify.
  - apply altgeo_process_keeps_verify.
Qed.

(** When the input file does not exist, [process] raises
    [FileNotFoundError] and changes nothing, for both encoders, with the
    cache on (the file is opened to hash it before the cache is looked
    at, so a cached batch cannot be served without it) and with the
    cache off. *)
Theorem missing_input_file_raises (numenta : NumentaPreprocessor.t)
    (altgeo : AltGeoPreprocessor.t) (csvfile : string) (use_cache : bool)
    (cachedfile : string) (st : World rng) :
  files st !! csvfile = None ->
  process numenta csvfile use_cache cachedfile st = (Raise FileNotFoundError, st) /\
  process altgeo csvfile use_cache cachedfile st = (Raise FileNotFoundError, st).
Proof.
  intros Hf. destruct use_cache.
  - split; now apply process_missing_input_cached.
  - rewrite !process_no_cache.
    change (_process numenta) with (NumentaPreprocessor._process numenta).
    change (_process altgeo) with (AltGeoPreprocessor._process altgeo).
    now rewrite numenta_process_missing_file, altgeo_process_missing_file.
Qed.

(** When the frame read from the input file lacks one of the columns
    [speed], [latitude], [longitude], both hooks raise [KeyError] and
    leave the world as it was, and so does [process], with no cache file
    written. *)
Theorem missing_column_raises_key_error (numenta : NumentaPreprocessor.t)
    (altgeo : AltGeoPreprocessor.t) (csvfile : string) (use_cache : bool)
    (cachedfile : string) (ls : list string) (df : gmap string (list Q)) (st : World rng) :
  files st !! csvfile = Some (Text ls) ->
  read_csv ls = Ok df ->
  df !! "speed" = None \/ df !! "latitude" = None \/ df !! "longitude" = None ->
  files st !! cachedfile = None ->
  (forall cache, NumentaPreprocessor._process numenta csvfile cache st = (Raise KeyError, st)) /\
  (forall cache, AltGeoPreprocessor._process altgeo csvfile cache st = (Raise KeyError, st)) /\
  process numenta csvfile use_cache cachedfile st = (Raise KeyError, st) /\
  process altgeo csvfile use_cache cachedfile st = (Raise KeyError, st).
Proof.
  intros Hf Hdf Hmiss Hc.
  assert (Hn : forall cache,
             NumentaPreprocessor._process numenta csvfile cache st = (Raise KeyError, st)).
  { intros cache. now apply (numenta_process_missing_column numenta csvfile cache ls df). }
  assert (Ha : forall cache,
             AltGeoPreprocessor._process altgeo csvfile cache st = (Raise KeyError, st)).
  { intros cache. now apply (altgeo_process_missing_column altgeo csvfile cache ls df). }
  split; [exact Hn |]. split; [exact Ha |]. split.
  - apply (process_hook_raises numenta csvfile cachedfile ls); [done | exact Hn | now left].
  - apply (process_hook_raises altgeo csvfile cachedfile ls); [done | exact Ha | now left].
Qed.
End Concrete.

(** pandas on a file whose header names the speed column only. *)
Program Definition SpeedOnly_pandas : Pandas := {|
  read_csv := fun ls => Ok {["speed" := []]};
  nrows := fun _ => 0%nat
|}.
Next Obligation.
  intros ls df c col [= <-] Hc. apply lookup_singleton_Some in Hc as [_ <-]. reflexivity.
Qed.

Lemma second_run_is_served_from_cache_witness :
  let a := NumentaPreprocessor.default in
  let b := {| NumentaPreprocessor.w := 21; NumentaPreprocessor.n := 1000;
              NumentaPreprocessor.scale := 6; NumentaPreprocessor.timestep := 10 |} in
  let run := AbstractPreprocessor.process a "data.csv" true "./processed/data.p"
               (sample_world Sample.csv None) in
  AbstractPreprocessor.process b "data.csv" true "./processed/data.p" run.2 = run.
Proof.
  apply (second_run_is_served_from_cache (H := Sample_hashlib) (H0 := Sample_random)
           NumentaPreprocessor.default
           {| NumentaPreprocessor.w := 21; NumentaPreprocessor.n := 1000;
              NumentaPreprocessor.scale := 6; NumentaPreprocessor.timestep := 10 |}
           "data.csv" "./processed/data.p" (sample_world Sample.csv None)).
  - intros cache st0 c st1. apply numenta_hook_contract.
  - vm_compute. reflexivity.
Defined.

Lemma process_writes_only_the_cache_path_witness :
  let st := sample_world Sample.csv None in
  let run_n := AbstractPreprocessor.process NumentaPreprocessor.default
                 "data.csv" true "./processed/data.p" st in
  let run_a := AbstractPreprocessor.process AltGeoPreprocessor.default
                 "data.csv" true "./processed/data.p" st in
  files run_n.2 !! "data.csv" = files st !! "data.csv" /\
  files run_a.2 !! "data.csv" = files st !! "data.csv" /\
  gen run_a.2 = gen st /\
  (true = false -> files run_n.2 = files st /\ run_a.2 = st) /\
  (is_ok run_n.1 = false -> files run_n.2 = files st) /\
  (is_ok run_a.1 = false -> run_a.2 = st).
Proof.
  apply (process_writes_only_the_cache_path (H := Sample_hashlib) (H0 := Sample_random)
           (H1 := Sample_numpy) (H2 := Sample_pandas) (H3 := Sample_pyproj)
           NumentaPreprocessor.default AltGeoPreprocessor.default
           "data.csv" true "./processed/data.p" "data.csv" (sample_world Sample.csv None)).
  discriminate.
Defined.

Lemma missing_input_file_raises_witness :
  let st := sample_world Sample.csv None in
  AbstractPreprocessor.process NumentaPreprocessor.default "absent.csv" true
    "./processed/data.p" st = (Raise FileNotFoundError, st) /\
  AbstractPreprocessor.process AltGeoPreprocessor.default "absent.csv" true
    "./processed/data.p" st = (Raise FileNotFoundError, st).
Proof.
  apply (missing_input_file_raises (H := Sample_hashlib) (H0 := Sample_random)
           (H1 := Sample_numpy) (H2 := Sample_pandas) (H3 := Sample_pyproj)
           NumentaPreprocessor.default AltGeoPreprocessor.default
           "absent.csv" true "./processed/data.p" (sample_world Sample.csv None)).
  vm_compute. reflexivity.
Defined.

Lemma missing_column_raises_key_error_witness :
  let st := sample_world ["speed" ++ Sample.nl] None in
  (forall cache, NumentaPreprocessor._process (H2 := SpeedOnly_pandas)
                   NumentaPreprocessor.default "data.csv" cache st = (Raise KeyError, st)) /\
  (forall cache, AltGeoPreprocessor._process (H0 := SpeedOnly_pandas)
                   AltGeoPreprocessor.default "data.csv" cache st = (Raise KeyError, st)) /\
  AbstractPreprocessor.process (AbstractPreprocessor0 := NumentaPreprocessor_class (H2 := SpeedOnly_pandas))
    NumentaPreprocessor.default "data.csv" true "./processed/data.p" st
  = (Raise KeyError, st) /\
  AbstractPreprocessor.process (AbstractPreprocessor0 := AltGeoPreprocessor_class (H0 := SpeedOnly_pandas))
    AltGeoPreprocessor.default "data.csv" true "./processed/data.p" st
  = (Raise KeyError, st).
Proof.
  apply (missing_column_raises_key_error (H := Sample_hashlib) (H0 := Sample_random)
           (H1 := Sample_numpy) (H2 := SpeedOnly_pandas) (H3 := Sample_pyproj)
           NumentaPreprocessor.default AltGeoPreprocessor.default
           "data.csv" true "./processed/data.p" ["speed" ++ Sample.nl] {["speed" := []]}).
  - vm_compute. reflexivity.
  - reflexivity.
  - right. left. reflexivity.
  - vm_compute. reflexivity.
Defined.

(** ** NeighborhoodSampler: the cells of the window and of the selection *)

Lemma list_prod_elem_of {A B} (l : list A) (l' : list B) (x : A) (y : B) :
  (x, y) ∈ list_prod l l' <-> x ∈ l /\ y ∈ l'.
Proof. rewrite !list_elem_of_In. apply in_prod_iff. Qed.

Lemma list_prod_NoDup {A B} (l : list A) (l' : list B) :
  NoDup l -> NoDup l' -> NoDup (list_prod l l').
Proof.
  intros Hl Hl'. induction Hl as [|a l Ha Hl IH]; simpl; [constructor |].
  apply NoDup_app. split; [| split; [| exact IH]].
  - change (map (fun y : B => (a, y)) l') with (pair a <$> l').
    apply NoDup_fmap_2; [| exact Hl']. now intros y y' [=].
  - intros [x y] Hin Hin'.
    change (map (fun y : B => (a, y)) l') with (pair a <$> l') in Hin.
    apply list_elem_of_fmap in Hin as (y' & [= -> ->] & _).
    apply list_prod_elem_of in Hin' as [Hin' _]. contradiction.
Qed.

Section Window.
Import NumentaPreprocessor.

Lemma neighbors_elem_of (latitude longitude radius x y : Z) :
  (x, y) ∈ __neighbors latitude longitude radius <->
  Z.abs (x - latitude) <= radius /\ Z.abs (y - longitude) <= radius.
Proof.
  unfold __neighbors, range. rewrite list_prod_elem_of, !elem_of_seqZ. lia.
Qed.

Lemma neighbors_NoDup (latitude longitude radius : Z) :
  NoDup (__neighbors latitude longitude radius).
Proof. apply list_prod_NoDup; apply NoDup_seqZ. Qed.

Lemma neighbors_negative (latitude longitude radius : Z) :
  radius < 0 -> __neighbors latitude longitude radius = [].
Proof.
  intros Hr. unfold __neighbors, range.
  replace (seqZ (latitude - radius) _) with (@nil Z); [reflexivity |].
  symmetry. apply length_zero_iff_nil. rewrite length_seqZ. lia.
Qed.
End Window.

Lemma fmap_lookup_total_seq {A} `{Inhabited A} (l : list A) :
  (l !!!.) <$> seq 0 (length l) = l.
Proof.
  apply list_eq. intros i. rewrite list_lookup_fmap.
  destruct (decide (i < length l)%nat) as [Hi | Hi].
  - rewrite lookup_seq_lt by done. simpl.
    destruct (lookup_lt_is_Some_2 l i Hi) as [x Hx]. rewrite Hx. f_equal.
    now apply list_lookup_total_correct.
  - rewrite lookup_seq_ge by lia. simpl. symmetry. apply lookup_ge_None_2. lia.
Qed.

Section Selection.
Context `{Hashlib, Random, Numpy}.
Import NumentaPreprocessor.

Lemma top_cells_elem_of (self : t) (neighbors : list (Z * Z)) (c : Z * Z) :
  c ∈ (neighbors !!!.) <$> top_indices self neighbors -> c ∈ neighbors.
Proof.
  intros Hc. apply list_elem_of_fmap in Hc as (i & -> & Hi).
  apply top_indices_elem_of in Hi. now apply list_elem_of_lookup_total_2.
Qed.

Lemma top_indices_NoDup (self : t) (neighbors : list (Z * Z)) :
  NoDup (top_indices self neighbors).
Proof.
  unfold top_indices.
  pose proof (argsort_NoDup (order_value <$> neighbors)) as Hnd.
  rewrite <- (take_drop (length neighbors - Z.to_nat (w self)) (argsort _)) in Hnd.
  now apply NoDup_app in Hnd as (_ & _ & ?).
Qed.

Lemma top_cells_NoDup (self : t) (neighbors : list (Z * Z)) :
  NoDup neighbors -> NoDup ((neighbors !!!.) <$> top_indices self neighbors).
Proof.
  intros Hnd. apply NoDup_fmap_2_strong; [| apply top_indices_NoDup].
  intros i j Hi Hj Heq. apply top_indices_elem_of in Hi, Hj.
  destruct (lookup_lt_is_Some_2 neighbors i Hi) as [x Hx].
  destruct (lookup_lt_is_Some_2 neighbors j Hj) as [y Hy].
  rewrite (list_lookup_total_correct _ _ _ Hx), (list_lookup_total_correct _ _ _ Hy) in Heq.
  subst y. exact (NoDup_lookup _ _ _ _ Hnd Hx Hy).
Qed.

Lemma top_cells_all (self : t) (neighbors : list (Z * Z)) :
  Z.of_nat (length neighbors) <= w self ->
  (neighbors !!!.) <$> top_indices self neighbors ≡ₚ neighbors.
Proof.
  intros Hw. unfold top_indices.
  replace (length neighbors - Z.to_nat (w self))%nat with 0%nat by lia.
  rewrite drop_0, (argsort_perm (order_value <$> neighbors)), length_fmap.
  now rewrite fmap_lookup_total_seq.
Qed.

Lemma top_cells_suffix (self self' : t) (neighbors : list (Z * Z)) :
  0 < w self <= w self' ->
  (neighbors !!!.) <$> top_indices self neighbors
  = drop (Nat.min (Z.to_nat (w self')) (length neighbors)
          - Nat.min (Z.to_nat (w self)) (length neighbors))
      ((neighbors !!!.) <$> top_indices self' neighbors).
Proof.
  intros Hw. unfold top_indices. rewrite <- fmap_drop, drop_drop. do 2 f_equal. lia.
Qed.
End Selection.

(** ** SparseVectorEncoder: configuration, bits and the generator *)

Lemma set_indices_lookup (indices : list Z) (output v : list Z) (j : nat) :
  set_indices output indices 1 = Ok v ->
  Forall (fun i => 0 <= i < Z.of_nat (length output)) indices ->
  v !! j = Some 1 <-> output !! j = Some 1 \/ Z.of_nat j ∈ indices.
Proof.
  revert output. induction indices as [|i indices IH]; intros output Hv Hin.
  - simpl in Hv. injection Hv as <-. rewrite elem_of_nil. tauto.
  - apply Forall_cons in Hin as [Hi Hin]. simpl in Hv.
    rewrite set_index_in_range in Hv by done. simpl in Hv.
    rewrite (IH _ Hv) by now rewrite length_insert.
    rewrite elem_of_cons.
    destruct (decide (Z.to_nat i = j)) as [<- | Hne].
    + rewrite list_lookup_insert_eq by lia. split; [intros _ | tauto].
      right. left. lia.
    + rewrite list_lookup_insert_ne by done.
      split; intros [? | ?]; try tauto. destruct H as [E | ?]; [lia | tauto].
Qed.

Lemma mapM_all_raise {A B} (f : A -> res B) (l : list A) (e : exn) :
  l <> [] -> (forall a, f a = Raise e) -> mapM f l = Raise e.
Proof. intros Hl Hf. destruct l as [|a l]; [done |]. simpl. now rewrite Hf. Qed.

Section Acceptance.
Context `{Hashlib, Random, Numpy, Pyproj}.
Import NumentaPreprocessor.

Lemma bit_index_empty_range (self : t) (c : Z * Z) :
  n self <= 0 -> bit_index self c = Raise ValueError.
Proof.
  intros Hn. destruct (hash_coordinate_ok c.1 c.2) as (m & _ & Hh).
  unfold bit_index. rewrite Hh. simpl.
  now destruct (Z.ltb_spec (n self - 1) 0); [| lia].
Qed.

Lemma select_of_nonempty (self : t) (neighbors : list (Z * Z)) :
  0 <= w self -> neighbors <> [] ->
  exists top, select_of self neighbors = Ok top /\ top <> [].
Proof.
  intros Hw Hne.
  assert (Hlen : (0 < length neighbors)%nat) by (destruct neighbors; [done | simpl; lia]).
  destruct (Z.eq_dec (w self) 0) as [Hz | Hz].
  - rewrite (select_of_w_zero self neighbors Hz). eexists. split; [reflexivity |].
    intros E. apply (f_equal length) in E.
    rewrite length_fmap, argsort_length, length_fmap in E. simpl in E. lia.
  - rewrite select_of_top by lia. eexists. split; [reflexivity |].
    intros E. apply (f_equal length) in E. unfold top_indices in E.
    rewrite length_fmap, length_drop, argsort_length, length_fmap in E. simpl in E. lia.
Qed.

Lemma neighbors_nonempty (latitude longitude radius : Z) :
  0 <= radius -> __neighbors latitude longitude radius <> [].
Proof.
  intros Hr E. apply (f_equal length) in E.
  pose proof (neighbors_length latitude longitude radius Hr). simpl in E. nia.
Qed.

Lemma map_transform_ok (self : t) (latitude longitude : Q) :
  scale self <> 0 ->
  __map_transform self latitude longitude =
    Ok (int_of_float ((proj longitude latitude).2 / inject_Z (scale self)),
        int_of_float ((proj longitude latitude).1 / inject_Z (scale self))).
Proof.
  intros Hs. unfold __map_transform. destruct (proj longitude latitude) as [x y].
  now rewrite !py_div_ok by done.
Qed.

Lemma map_transform_zero (self : t) (latitude longitude : Q) :
  scale self = 0 -> __map_transform self latitude longitude = Raise ZeroDivisionError.
Proof.
  intros Hs. unfold __map_transform. destruct (proj longitude latitude) as [x y].
  now rewrite Hs.
Qed.

Lemma radius_negative_w (self : t) (speed : Q) :
  scale self <> 0 -> w self < 0 -> __radius self speed = Raise ValueError.
Proof.
  intros Hs Hw. unfold __radius. rewrite py_div_ok by done. simpl.
  now destruct (Z.ltb_spec (w self) 0); [| lia].
Qed.

Lemma radius_nonneg (self : t) (speed : Q) (r : Z) :
  __radius self speed = Ok r -> 0 <= r.
Proof.
  unfold __radius. destruct (py_div _ _) as [c |]; [| discriminate]. simpl.
  destruct (Z.ltb_spec (w self) 0); [discriminate |]. simpl. intros [= <-].
  pose proof (ceil_half_sqrt_pred_nonneg (w self)). lia.
Qed.

(** The vector of a record, by the configuration. *)
Lemma encode_point_cases (self : t) (data_point : Q * Q * Q) :
  (n self < 0 -> encode_point self data_point = Raise RuntimeError) /\
  (0 <= n self -> scale self = 0 -> encode_point self data_point = Raise ZeroDivisionError) /\
  (0 <= n self -> scale self <> 0 -> w self < 0 ->
     encode_point self data_point = Raise ValueError) /\
  (n self = 0 -> scale self <> 0 -> 0 <= w self ->
     encode_point self data_point = Raise ValueError) /\
  (0 < n self -> scale self <> 0 -> 0 <= w self ->
     exists v, encode_point self data_point = Ok v /\ length v = Z.to_nat (n self)).
Proof.
  destruct data_point as [[speed latitude] longitude].
  unfold encode_point, torch_zeros, vector_of.
  split; [| split; [| split; [| split]]].
  - intros Hn. now destruct (Z.ltb_spec (n self) 0); [| lia].
  - intros Hn Hs. destruct (Z.ltb_spec (n self) 0); [lia |]. simpl.
    now rewrite map_transform_zero.
  - intros Hn Hs Hw. destruct (Z.ltb_spec (n self) 0); [lia |]. simpl.
    rewrite map_transform_ok by done. simpl. now rewrite radius_negative_w.
  - intros Hn Hs Hw. destruct (Z.ltb_spec (n self) 0); [lia |]. simpl.
    rewrite map_transform_ok by done. simpl.
    rewrite radius_run by done. simpl.
    set (radius := Z.max _ _).
    assert (Hradius : 0 <= radius).
    { unfold radius. pose proof (ceil_half_sqrt_pred_nonneg (w self)). lia. }
    set (neighbors := __neighbors _ _ radius).
    assert (Hnb : neighbors <> []) by now apply neighbors_nonempty.
    destruct (select_of_nonempty self neighbors Hw Hnb) as (top & -> & Htop).
    simpl. rewrite (mapM_all_raise _ top ValueError); [reflexivity | done |].
    intros c. apply bit_index_empty_range. lia.
  - intros Hn Hs Hw. destruct (Z.eq_dec (w self) 0) as [Hz | Hz].
    + destruct (vector_of_w_zero self (speed, latitude, longitude) Hz Hs Hn)
        as (v & Hv & Hlen & _).
      destruct (Z.ltb_spec (n self) 0); [lia |]. simpl. rewrite length_replicate.
      exists v. split; [exact Hv | exact Hlen].
    + destruct (encode_point_bits self (speed, latitude, longitude) Hs ltac:(lia) Hn)
        as (v & Hv & Hlen & _).
      exists v. split; [exact Hv | exact Hlen].
Qed.
End Acceptance.

Lemma seeded_after_pure `{Random} {A B} (m : io A) (k : A -> io B) (a : A)
    (r : res B) (g : rng) :
  pure_call m (Ok a) -> seeded_call (k a) r g -> seeded_call (m ≫= k) r g.
Proof.
  intros Hm Hk st. rewrite io_bind_run. destruct (Hm st) as [g0 ->]. now rewrite Hk.
Qed.

Lemma seeded_then_pure `{Random} {A B} (m : io A) (k : A -> io B) (a : A)
    (r : res B) (g : rng) :
  seeded_call m (Ok a) g -> (forall st, k a st = (r, st)) -> seeded_call (m ≫= k) r g.
Proof. intros Hm Hk st. rewrite io_bind_run, Hm. now rewrite Hk. Qed.

Lemma seeded_mapM_last `{Random} {A B} (f : A -> io B) (p : A -> res B)
    (l : list A) (a : A) (k : list B) (b : B) (g : rng) :
  (forall x, pure_call (f x) (p x)) -> mapM p l = Ok k ->
  seeded_call (f a) (Ok b) g ->
  seeded_call (mapM f (l ++ [a])%list) (Ok (k ++ [b])%list) g.
Proof.
  intros Hf. revert k. induction l as [|x l IH]; intros k Hk Ha st.
  - injection Hk as <-. change ([] ++ [a])%list with [a].
    rewrite io_mapM_cons, Ha, io_mapM_nil. reflexivity.
  - simpl in Hk. destruct (p x) as [y |] eqn:Hx; simpl in Hk; [| discriminate].
    destruct (mapM p l) as [k' |]; simpl in Hk; [| discriminate].
    injection Hk as <-.
    change ((x :: l) ++ [a])%list with (x :: (l ++ [a]))%list.
    rewrite io_mapM_cons. destruct (Hf x st) as [g0 ->]. rewrite Hx.
    now rewrite (IH k' eq_refl Ha).
Qed.

Lemma seeded_result `{Random} {A} (m : io A) (r r' : res A) (g : rng) :
  seeded_call m r g -> pure_call m r' -> r = r'.
Proof.
  intros Hs Hp. destruct (Hp {| files := ∅; gen := g |}) as [g' Hg'].
  rewrite Hs in Hg'. congruence.
Qed.

Section Reseeding.
Context `{Hashlib, Random, Numpy, Pyproj}.
Import NumentaPreprocessor.

Lemma coordinate_bit_seeded (self : t) (c : Z * Z) :
  0 < n self ->
  exists i g, seeded_call (__coordinate_bit self c.1 c.2) (Ok i) g.
Proof.
  intros Hn. destruct (hash_coordinate_ok c.1 c.2) as (m & _ & Hh).
  exists (randint 0 (n self - 1) (seed (m mod 2 ^ 64))).1,
         (randint 0 (n self - 1) (seed (m mod 2 ^ 64))).2.
  intros st. exact (coordinate_bit_run self c.1 c.2 _ st Hh Hn).
Qed.

Lemma bit_indices_seeded (self : t) (top : list (Z * Z)) :
  0 < n self -> top <> [] ->
  exists indices g,
    seeded_call (mapM (fun c => __coordinate_bit self c.1 c.2) top) (Ok indices) g /\
    mapM (bit_index self) top = Ok indices.
Proof.
  intros Hn Hne. destruct (exists_last Hne) as (top' & c & ->).
  destruct (bit_indices_ok self top' Hn) as (ind & Hind & _).
  destruct (coordinate_bit_seeded self c Hn) as (i & g & Hc).
  pose proof (seeded_mapM_last _ _ top' c ind i g (coordinate_bit_pure self) Hind Hc)
    as Hloop.
  exists (ind ++ [i])%list, g. split; [exact Hloop |].
  symmetry. apply (seeded_result _ _ _ _ Hloop).
  apply pure_call_mapM, coordinate_bit_pure.
Qed.

Lemma generate_vector_seeded (self : t) (data_point : Q * Q * Q) (len : nat) :
  scale self <> 0 -> 0 <= w self -> 0 < n self ->
  exists g, forall output, length output = len ->
    seeded_call (__generate_vector self data_point output)
                (vector_of self data_point len) g.
Proof.
  intros Hs Hw Hn. destruct data_point as [[speed latitude] longitude].
  unfold __generate_vector, vector_of.
  rewrite map_transform_ok by done. rewrite radius_run by done.
  set (cell := (int_of_float _, int_of_float _)).
  set (radius := Z.max _ _).
  assert (Hradius : 0 <= radius).
  { unfold radius. pose proof (ceil_half_sqrt_pred_nonneg (w self)). lia. }
  change (Ok cell ≫= ?f) with (f cell). cbv beta iota. unfold cell at 1 2.
  change (Ok radius ≫= ?f) with (f radius). cbv beta.
  set (neighbors := __neighbors _ _ radius).
  assert (Hnb : neighbors <> []) by now apply neighbors_nonempty.
  destruct (select_of_nonempty self neighbors Hw Hnb) as (top & Htop & Hne).
  destruct (bit_indices_seeded self top Hn Hne) as (indices & g & Hloop & Hpure).
  exists g. intros output <-.
  apply (seeded_after_pure _ _ cell); [apply pure_call_lift |]. cbv beta iota. unfold cell.
  apply (seeded_after_pure _ _ radius); [apply pure_call_lift |].
  fold neighbors. rewrite Htop.
  apply (seeded_after_pure _ _ top); [rewrite <- Htop; apply select_pure |].
  change (Ok top ≫= ?f) with (f top). cbv beta. rewrite Hpure.
  change (Ok ?x ≫= ?f) with (f x). cbv beta.
  now apply (seeded_then_pure _ _ _ _ _ Hloop).
Qed.
End Reseeding.

Section HookByConfiguration.
Context `{Hashlib, Random, Numpy, Pandas, Pyproj}.
Import NumentaPreprocessor.

Lemma encode_point_by_configuration (self : t) (data_point : Q * Q * Q) :
  match config_error self with
  | Some e => encode_point self data_point = Raise e
  | None => exists v, encode_point self data_point = Ok v /\ length v = Z.to_nat (n self)
  end.
Proof.
  destruct (encode_point_cases self data_point) as (E1 & E2 & E3 & E4 & E5).
  unfold config_error.
  destruct (Z.ltb_spec (n self) 0); [now apply E1 |].
  destruct (Z.eqb_spec (scale self) 0); [now apply E2 |].
  destruct (Z.ltb_spec (w self) 0); [now apply E3 |].
  destruct (Z.eqb_spec (n self) 0); [now apply E4 |].
  apply E5; [lia | done | done].
Qed.

Lemma rows_nonempty (ls : list string) (df : gmap string (list Q))
    (speeds latitudes longitudes : list Q) :
  read_csv ls = Ok df -> df !! "speed" = Some speeds ->
  df !! "latitude" = Some latitudes -> df !! "longitude" = Some longitudes ->
  length (zip3 speeds latitudes longitudes) = nrows ls.
Proof. intros Hdf Hs Hla Hlo. apply zip3_length; eapply read_csv_columns; eauto. Qed.

End HookByConfiguration.

Section Bits.
Context `{Hashlib, Random, Numpy, Pyproj}.
Import NumentaPreprocessor.

Lemma encode_point_bits_exact (self : t) (data_point : Q * Q * Q) :
  scale self <> 0 -> 0 <= w self -> 0 < n self ->
  exists top indices v,
    selected_cells self data_point = Ok top /\ top <> [] /\
    mapM (bit_index self) top = Ok indices /\
    encode_point self data_point = Ok v /\
    length v = Z.to_nat (n self) /\
    (forall j, (j < length v)%nat ->
       v !! j = Some (if bool_decide (Z.of_nat j ∈ indices) then 1 else 0)) /\
    (1 <= ones v)%nat.
Proof.
  intros Hs Hw Hn. destruct data_point as [[speed latitude] longitude].
  unfold selected_cells, encode_point, torch_zeros, vector_of.
  destruct (Z.ltb_spec (n self) 0); [lia |].
  change (Ok ?x ≫= ?f) with (f x). cbv beta. rewrite length_replicate.
  rewrite map_transform_ok by done.
  change (Ok ?x ≫= ?f) with (f x). cbv beta iota.
  rewrite radius_run by done.
  change (Ok ?x ≫= ?f) with (f x). cbv beta.
  set (radius := Z.max _ _).
  assert (Hradius : 0 <= radius).
  { unfold radius. pose proof (ceil_half_sqrt_pred_nonneg (w self)). lia. }
  set (neighbors := __neighbors _ _ radius).
  assert (Hnb : neighbors <> []) by now apply neighbors_nonempty.
  destruct (select_of_nonempty self neighbors Hw Hnb) as (top & Htop & Hne).
  rewrite Htop.
  change (Ok ?x ≫= ?f) with (f x). cbv beta.
  destruct (bit_indices_ok self top Hn) as (indices & Hind & Hlen & Hrange).
  rewrite Hind.
  change (Ok ?x ≫= ?f) with (f x). cbv beta.
  assert (Hin : Forall (fun i => 0 <= i < Z.of_nat (length (replicate (Z.to_nat (n self)) 0)))
                       indices).
  { rewrite length_replicate. eapply Forall_impl; [exact Hrange |]. simpl. lia. }
  pose proof (set_indices_in_range indices _ Hin) as Hok.
  destruct (set_indices _ indices 1) as [v |] eqn:Hv; [| discriminate].
  exists top, indices, v.
  pose proof (set_indices_inv _ _ _ Hv) as (Hl & Hbit & _ & _).
  rewrite length_replicate in Hl.
  assert (Hbits : Forall bit v) by (apply Hbit, Forall_replicate; now left).
  split; [reflexivity |]. split; [exact Hne |]. split; [exact Hind |].
  split; [reflexivity |]. split; [exact Hl |]. split.
  - intros j Hj. destruct (lookup_lt_is_Some_2 v j Hj) as [x Hx].
    pose proof (set_indices_lookup indices _ v j Hv Hin) as Hiff.
    case_bool_decide as Hmem.
    + apply Hiff. now right.
    + rewrite Hx. f_equal.
      destruct (Forall_lookup_1 _ _ _ _ Hbits Hx) as [-> | ->]; [reflexivity |].
      apply Hiff in Hx as [Hx | Hx]; [| contradiction].
      apply lookup_replicate in Hx as [? _]. discriminate.
  - destruct indices as [|i indices]; [destruct top; [done | discriminate] |].
    apply Forall_cons in Hin as [Hi _].
    apply (count_occ_lookup v (Z.to_nat i)).
    apply (set_indices_lookup _ _ v (Z.to_nat i) Hv).
    { apply Forall_cons. split; [exact Hi |]. apply Forall_cons in Hrange as [_ Hr].
      rewrite length_replicate. eapply Forall_impl; [exact Hr |]. simpl. lia. }
    right. rewrite Z2Nat.id by lia. apply list_elem_of_here.
Qed.
End Bits.

(** [int(x)] truncates towards zero. *)
Lemma int_of_float_nonpos (x : Q) : (x <= 0)%Q -> int_of_float x = - Qfloor (- x).
Proof.
  destruct x as [n d]. unfold Qle, int_of_float, Qfloor, Qopp. simpl. intros Hn.
  rewrite <- (Z.opp_involutive n) at 1. rewrite Z.quot_opp_l by lia. f_equal.
  apply Z.quot_div_nonneg; lia.
Qed.

Lemma int_of_float_bounds (x : Q) :
  ((0 <= x)%Q -> 0 <= int_of_float x /\
     (inject_Z (int_of_float x) <= x)%Q /\ (x < inject_Z (int_of_float x + 1))%Q) /\
  ((x <= 0)%Q -> int_of_float x <= 0 /\
     (inject_Z (int_of_float x - 1) < x)%Q /\ (x <= inject_Z (int_of_float x))%Q).
Proof.
  split; intros Hx.
  - rewrite int_of_float_nonneg by done.
    split; [now apply Qfloor_nonneg |]. split; [apply Qfloor_le | apply Qlt_floor].
  - rewrite int_of_float_nonpos by done.
    assert (Hneg : (0 <= - x)%Q) by Lqa.lra.
    pose proof (Qfloor_nonneg _ Hneg) as H0.
    pose proof (Qfloor_le (- x)) as H1. pose proof (Qlt_floor (- x)) as H2.
    rewrite inject_Z_plus in H2.
    split; [lia |]. unfold Z.sub. rewrite inject_Z_plus, !inject_Z_opp.
    change (inject_Z 1) with 1%Q in *. split; Lqa.lra.
Qed.

Lemma Qscale_order (y : Q) (s : Z) (k : Z) :
  0 < s ->
  ((inject_Z k <= y / inject_Z s)%Q -> (inject_Z (k * s) <= y)%Q) /\
  ((y / inject_Z s < inject_Z k)%Q -> (y < inject_Z (k * s))%Q) /\
  ((inject_Z k < y / inject_Z s)%Q -> (inject_Z (k * s) < y)%Q) /\
  ((y / inject_Z s <= inject_Z k)%Q -> (y <= inject_Z (k * s))%Q).
Proof.
  intros Hs.
  assert (Hpos : (0 < inject_Z s)%Q) by (unfold Qlt; simpl; lia).
  assert (Hy : (y / inject_Z s * inject_Z s == y)%Q).
  { field. intros E. rewrite E in Hpos. now apply Qlt_irrefl in Hpos. }
  rewrite inject_Z_mult.
  split; [| split; [| split]]; intros Hk; rewrite <- Hy.
  - apply Qmult_le_compat_r; [done | now apply Qlt_le_weak].
  - now apply Qmult_lt_compat_r.
  - now apply Qmult_lt_compat_r.
  - apply Qmult_le_compat_r; [done | now apply Qlt_le_weak].
Qed.

Lemma truncated_cell_ok (y : Q) (s : Z) :
  0 < s -> truncated_cell s y (int_of_float (y / inject_Z s)).
Proof.
  intros Hs.
  assert (Hpos : (0 < inject_Z s)%Q) by (unfold Qlt; simpl; lia).
  destruct (int_of_float_bounds (y / inject_Z s)) as [Hnonneg Hnonpos].
  split; intros Hy.
  - destruct Hnonneg as (H0 & Hlo & Hhi).
    { apply Qle_shift_div_l; [done |]. now rewrite Qmult_0_l. }
    split; [done |].
    split; [now apply Qscale_order | now apply Qscale_order].
  - destruct Hnonpos as (H0 & Hlo & Hhi).
    { apply Qle_shift_div_r; [done |]. now rewrite Qmult_0_l. }
    split; [done |].
    split; [now apply Qscale_order | now apply Qscale_order].
Qed.

(** The number a string of hexadecimal digits writes, by its digits. *)
Lemma hex_digit_range (c : ascii) (d : Z) : hex_digit c = Some d -> 0 <= d < 16.
Proof.
  unfold hex_digit. set (n := Z.of_nat (nat_of_ascii c)).
  repeat case_match; intros [= <-]; lia.
Qed.

Lemma int16_from_shift (s : string) (acc : Z) :
  int16_from acc s = (fun v => acc * 16 ^ Z.of_nat (String.length s) + v) <$> int16_from 0 s.
Proof.
  revert acc. induction s as [|c s IH]; intros acc.
  - simpl. f_equal. lia.
  - cbn [int16_from String.length]. destruct (hex_digit c) as [d |]; [| reflexivity].
    rewrite (IH (16 * acc + d)), (IH (16 * 0 + d)).
    destruct (int16_from 0 s) as [v |]; [| reflexivity].
    cbn [fmap option_fmap option_map]. f_equal.
    rewrite Nat2Z.inj_succ, Z.pow_succ_r by lia. lia.
Qed.

Lemma int16_from_bound (s : string) (v : Z) :
  int16_from 0 s = Some v -> 0 <= v < 16 ^ Z.of_nat (String.length s).
Proof.
  revert v. induction s as [|c s IH]; intros v.
  - simpl. intros [= <-]. lia.
  - cbn [int16_from String.length]. destruct (hex_digit c) as [d |] eqn:Hd; [| discriminate].
    rewrite int16_from_shift. destruct (int16_from 0 s) as [v' |]; [| discriminate].
    cbn [fmap option_fmap option_map]. intros [= <-]. specialize (IH v' eq_refl).
    apply hex_digit_range in Hd.
    rewrite Nat2Z.inj_succ, Z.pow_succ_r by lia. nia.
Qed.

Lemma substring_all (s : string) : substring 0 (String.length s) s = s.
Proof. induction s as [|c s IH]; simpl; [reflexivity | now rewrite IH]. Qed.

Lemma substring_split (n m : nat) (s : string) :
  String.length s = (n + m)%nat ->
  s = substring 0 n s ++ substring n m s /\ String.length (substring n m s) = m.
Proof.
  revert n. induction s as [|c s IH]; intros n Hlen.
  - simpl in Hlen. assert (n = 0%nat) as -> by lia. assert (m = 0%nat) as -> by lia.
    now split.
  - destruct n as [|n].
    + simpl in Hlen. subst m.
      change (substring 0 0 (String c s)) with "".
      change (substring 0 (S (String.length s)) (String c s))
        with (String c (substring 0 (String.length s) s)).
      rewrite substring_all. now split.
    + simpl in Hlen. destruct (IH n) as [Hs Hl]; [lia |].
      change (substring 0 (S n) (String c s)) with (String c (substring 0 n s)).
      change (substring (S n) m (String c s)) with (substring n m s).
      rewrite string_append_cons. split; [now f_equal | exact Hl].
Qed.

Section SpatialExtras.
Context `{Hashlib, Random, Numpy, Pandas, Pyproj}.
Import NumentaPreprocessor.

(** The window of [__neighbors] is the square around the centre: a cell
    belongs to it exactly when both its coordinates are within [radius]
    of the centre's; no cell occurs twice; for a negative radius the
    window is empty, otherwise it holds the centre. *)
Theorem window_is_the_square_without_duplicates (latitude longitude radius : Z) :
  (forall x y, (x, y) ∈ __neighbors latitude longitude radius <->
     Z.abs (x - latitude) <= radius /\ Z.abs (y - longitude) <= radius) /\
  NoDup (__neighbors latitude longitude radius) /\
  (radius < 0 -> __neighbors latitude longitude radius = []) /\
  (0 <= radius -> (latitude, longitude) ∈ __neighbors latitude longitude radius).
Proof.
  split; [intros x y; apply neighbors_elem_of |].
  split; [apply neighbors_NoDup |].
  split; [apply neighbors_negative |].
  intros Hr. apply neighbors_elem_of. lia.
Qed.

(** The selection of [__select], for [1 <= w] and a window without
    duplicates: the cells returned are cells of the window, none twice;
    when the window has at most [w] cells they are all returned; and
    the selection of an encoder with a larger [w] ends with the
    selection of the one with the smaller [w], so that raising [w] only
    adds cells. *)
Theorem selection_is_a_part_of_the_window (self self' : t) (neighbors : list (Z * Z)) :
  0 < w self -> w self <= w self' -> NoDup neighbors ->
  exists top top',
    pure_call (__select self neighbors) (Ok top) /\
    pure_call (__select self' neighbors) (Ok top') /\
    NoDup top /\
    (forall c, c ∈ top -> c ∈ neighbors) /\
    (Z.of_nat (length neighbors) <= w self -> top ≡ₚ neighbors) /\
    top = drop (length top' - length top) top'.
Proof.
  intros Hw Hw' Hnd.
  exists ((neighbors !!!.) <$> top_indices self neighbors),
         ((neighbors !!!.) <$> top_indices self' neighbors).
  split; [rewrite <- select_of_top by done; apply select_pure |].
  split; [rewrite <- select_of_top by lia; apply select_pure |].
  split; [now apply top_cells_NoDup |].
  split; [apply top_cells_elem_of |].
  split; [apply top_cells_all |].
  rewrite (top_cells_suffix self self' neighbors) at 1 by lia. f_equal.
  unfold top_indices. rewrite !length_fmap, !length_drop, !argsort_length, !length_fmap. lia.
Qed.






(** The seed of a cell is the number that the last 16 hexadecimal
    digits of the MD5 digest of its key string write, a number of 64
    bits; and the key string identifies the cell: the key strings of
    two cells are equal only when the cells are. *)
Theorem coordinate_hash_key :
  (forall a b, exists h,
     __hash_coordinate a b = Ok h /\ 0 <= h < 2 ^ 64 /\
     int16 (substring 16 16 (md5_hexdigest (str a ++ "," ++ str b))) = Some h) /\
  (forall a b a' b',
     str a ++ "," ++ str b = str a' ++ "," ++ str b' -> a = a' /\ b = b').
Proof.
  split; [| apply coordinate_key_split].
  intros a b.
  destruct (hash_coordinate_ok a b) as (m & Hm & Hh).
  set (digest := md5_hexdigest (str a ++ "," ++ str b)) in *.
  pose proof (md5_hexdigest_length (str a ++ "," ++ str b)) as Hlen. fold digest in Hlen.
  pose proof (substring_split 16 16 digest Hlen) as [Hsplit Hlow].
  set (low := substring 16 16 digest) in *. set (high := substring 0 16 digest) in *.
  assert (Hm' : int16_from 0 (high ++ low) = Some m).
  { rewrite <- Hsplit. unfold int16 in Hm. now destruct digest. }
  rewrite int16_from_append in Hm'.
  destruct (int16_from 0 high) as [x |]; [| discriminate].
  rewrite int16_from_shift in Hm'.
  destruct (int16_from 0 low) as [v |] eqn:Hv; [| discriminate].
  simpl in Hm'. injection Hm' as <-.
  pose proof (int16_from_bound low v Hv) as Hb. rewrite Hlow in Hb.
  change (16 ^ Z.of_nat 16) with (2 ^ 64) in *. rewrite Hlow in Hh.
  change (16 ^ Z.of_nat 16) with (2 ^ 64) in *.
  exists v. split; [| split; [exact Hb |]].
  - rewrite Hh. f_equal. rewrite Z.add_comm, Z.mod_add by lia. now apply Z.mod_small.
  - unfold int16. destruct low; [discriminate | exact Hv].
Qed.
End SpatialExtras.

Lemma selection_is_a_part_of_the_window_witness :
  let self := NumentaPreprocessor.default in
  let self' := {| NumentaPreprocessor.w := 30; NumentaPreprocessor.n := 1000;
                  NumentaPreprocessor.scale := 5; NumentaPreprocessor.timestep := 10 |} in
  let neighbors := NumentaPreprocessor.__neighbors 3 (-4) 2 in
  exists top top',
    pure_call (NumentaPreprocessor.__select self neighbors) (Ok top) /\
    pure_call (NumentaPreprocessor.__select self' neighbors) (Ok top') /\
    NoDup top /\
    (forall c, c ∈ top -> c ∈ neighbors) /\
    (Z.of_nat (length neighbors) <= 21 -> top ≡ₚ neighbors) /\
    top = drop (length top' - length top) top'.
Proof.
  apply (selection_is_a_part_of_the_window (H := Sample_hashlib) (H0 := Sample_random)
           (H1 := Sample_numpy) NumentaPreprocessor.default
           {| NumentaPreprocessor.w := 30; NumentaPreprocessor.n := 1000;
              NumentaPreprocessor.scale := 5; NumentaPreprocessor.timestep := 10 |}
           (NumentaPreprocessor.__neighbors 3 (-4) 2)).
  - reflexivity.
  - simpl. lia.
  - apply (bool_decide_unpack _). vm_compute. reflexivity.
Defined.





